(** * HSG Asset Archive Format: the archive codec of [AssetArchive.h]

    A shallow embedding of the C header [AssetArchive.h] (the HSGAA
    builder, writer, reader and extractor) together with the properties
    its specification states about it.

    Platform conventions fixed by the model (the header itself relies on
    them): LP64, little-endian object representation, [size_t] and
    [uint64_t] 64 bits wide, [sizeof(HSGAAEntry) = 24].

    The C code forms pointers out of integers, keeps pointers to freed
    buffers and indexes null arrays.  The model therefore carries an
    explicit heap of buffers and an outcome type with a [Fault] case: a
    [Fault] is a point at which the C program leaves defined behaviour
    (in practice: the process is killed or reads junk).

    Conventions of the model:
    - [malloc] and [realloc] always succeed; where [malloc] places a
      buffer, and zlib's [compress] and [compressBound], are parameters
      (class [Platform]);
    - [free] only marks a buffer as freed (freeing twice is not a fault
      of its own); reading a freed buffer is;
    - an integer or a name that [fread] could not deliver in full is
      uninitialised, and a run that goes on to use it is a [Fault];
    - the arrays of [HSGAAArchive] are lists behind an optional pointer,
      next to their counts, as in the struct; entry names are [string]s,
      file contents are lists of bytes;
    - a path names a regular file, or one that [fopen] refuses, or
      nothing; directories and other special files are outside the
      model;
    - [hsgaa_free_archive] is not modelled. *)

From Stdlib Require Import ZArith Lia List Ascii String.
From Stdlib Require Strings.Byte.
From stdpp Require Import base option list gmap strings.

Open Scope Z_scope.

(* ===================================================================== *)
(** * Bytes and object representations                                    *)
(* ===================================================================== *)

Abbreviation byte := Byte.byte.

#[global] Instance byte_eq_dec : EqDecision byte := Byte.byte_eq_dec.

(** The numeric value of an [unsigned char]. *)
Definition byte_val (b : byte) : Z := Z.of_N (Byte.to_N b).

(** Conversion of an integer to [uint8_t] (reduction modulo 256). *)
Definition byte_of_Z (z : Z) : byte :=
  default Byte.x00 (Byte.of_N (Z.to_N (z mod 256))).

(** [le_bytes w v]: the [w] bytes of the object representation of the
    unsigned integer [v] on a little-endian machine, lowest address
    first.  This is what [fwrite(&v, w, 1, f)] puts on the stream. *)
Fixpoint le_bytes (w : nat) (v : Z) : list byte :=
  match w with
  | O => []
  | S w' => byte_of_Z v :: le_bytes w' (v / 256)
  end.

(** The value an unsigned integer object has when its bytes are [bs]. *)
Fixpoint le_value (bs : list byte) : Z :=
  match bs with
  | [] => 0
  | b :: bs' => byte_val b + 256 * le_value bs'
  end.

(** Wrap-around of the fixed-width unsigned types. *)
Definition wrap32 (v : Z) : Z := v mod 2 ^ 32.
Definition wrap64 (v : Z) : Z := v mod 2 ^ 64.

(** Conversion [uint64_t -> long] as done by [fseek]'s prototype. *)
Definition to_long (v : Z) : Z :=
  let u := wrap64 v in if u <? 2 ^ 63 then u else u - 2 ^ 64.

(* ===================================================================== *)
(** * zlib: the routines the header calls                                 *)
(* ===================================================================== *)

Definition Z_OK : Z := 0.
Definition Z_MEM_ERROR : Z := -4.
Definition Z_BUF_ERROR : Z := -5.

Definition crc_poly : Z := 0xEDB88320.

(** One bit of the reflected CRC-32 shift register. *)
Definition crc_shift (c : Z) : Z :=
  if Z.testbit c 0 then Z.lxor (Z.shiftr c 1) crc_poly else Z.shiftr c 1.

Definition crc_byte (c : Z) (b : byte) : Z :=
  Nat.iter 8 crc_shift (Z.lxor c (byte_val b)).

(** Modelled from the spec: zlib's [crc32(crc, buf, len)] (zlib.h is not
    part of the sources).  "CRC32 ... using the standard CRC-32 polynomial
    with seed 0"; with a null buffer it returns the required initial
    value, 0.  [len] has type [uInt]: it is reduced modulo 2^32. *)
Definition crc32 (crc : Z) (buf : option (list byte)) (len : Z) : Z :=
  match buf with
  | None => 0
  | Some bs =>
      Z.lxor
        (fold_left crc_byte (take (Z.to_nat (wrap32 len)) bs)
           (Z.lxor crc 0xFFFFFFFF))
        0xFFFFFFFF
  end.

(** A sample [compressBound]: the bound zlib 1.3.1 computes. *)
Definition deflate_bound (n : Z) : Z :=
  n + Z.shiftr n 12 + Z.shiftr n 14 + Z.shiftr n 25 + 13.

(** Adler-32, the trailer of a zlib stream (used by the sample codec). *)
Definition adler32 (bs : list byte) : Z :=
  let '(a, b) :=
    fold_left
      (fun '(a, b) x =>
         let a' := (a + byte_val x) mod 65521 in (a', (b + a') mod 65521))
      bs (1, 0) in
  b * 65536 + a.

(** A sample [compress]: one stored DEFLATE block inside a zlib wrapper
    (inputs below 64 KiB).  It obeys zlib's contract: [Z_BUF_ERROR] when
    the destination has no room for the whole stream. *)
Definition stored_compress (destLen : Z) (source : list byte)
  : Z * (Z * list byte) :=
  let n := Z.of_nat (length source) in
  if 65536 <=? n then (Z_MEM_ERROR, (0, []))
  else
    let out :=
      [byte_of_Z 0x78; byte_of_Z 0x01; byte_of_Z 0x01]
        ++ le_bytes 2 n ++ le_bytes 2 (Z.lxor n 0xFFFF)
        ++ source ++ rev (le_bytes 4 (adler32 source)) in
    if destLen <? Z.of_nat (length out) then (Z_BUF_ERROR, (0, []))
    else (Z_OK, (Z.of_nat (length out), out)).

(* ===================================================================== *)
(** * C strings                                                           *)
(* ===================================================================== *)

(** A [char *] is modelled by the characters of its buffer, without the
    final terminator.  A buffer filled from a file can hold further NUL
    characters; the string functions stop at the first one. *)

Definition NUL : ascii := "000"%char.

Definition char_val (c : ascii) : Z := Z.of_N (N_of_ascii c).

(** The characters before the first NUL: what the C library sees. *)
Fixpoint c_str (s : string) : string :=
  match s with
  | EmptyString => EmptyString
  | String c t => if decide (c = NUL) then EmptyString else String c (c_str t)
  end.

Definition strlen (s : string) : Z := Z.of_nat (String.length (c_str s)).

Definition strdup (s : string) : string := c_str s.

(** [strcmp]: difference of the first pair of differing characters (as
    [unsigned char]), the end of a buffer counting as NUL. *)
Fixpoint strcmp (s1 s2 : string) : Z :=
  match s1, s2 with
  | EmptyString, EmptyString => 0
  | EmptyString, String c2 _ => 0 - char_val c2
  | String c1 _, EmptyString => char_val c1 - 0
  | String c1 t1, String c2 t2 =>
      if decide (c1 = c2)
      then (if decide (c1 = NUL) then 0 else strcmp t1 t2)
      else char_val c1 - char_val c2
  end.

(** The bytes [fwrite(s, 1, n, f)] takes from a string buffer. *)
Definition string_bytes (s : string) : list byte := list_byte_of_string s.

(* ===================================================================== *)
(** * Outcomes                                                            *)
(* ===================================================================== *)

(** The ways in which a run leaves defined behaviour. *)
Inductive fault : Type :=
| NullPointer (i : Z)      (* element [i] of a null array *)
| OutOfBounds (i : Z)      (* element [i] past the end of an array *)
| BadAddress (p : Z)       (* read through an address holding no object *)
| UseAfterFree (p : Z)     (* access to a buffer already freed *)
| Uninitialised            (* the result depends on uninitialised memory *)
| BufferOverflow.          (* write past the end of an allocation *)

Inductive outcome (A : Type) : Type :=
| Done (x : A)
| Fault (f : fault).
Arguments Done {A} x.
Arguments Fault {A} f.

Definition obind {A B} (o : outcome A) (k : A -> outcome B) : outcome B :=
  match o with
  | Done x => k x
  | Fault f => Fault f
  end.

Notation "x <~ o ; k" := (obind o (fun x => k))
  (at level 20, o at level 100, k at level 200, only parsing).

(** [strncmp] on raw buffers.  A buffer cell is [None] while it is
    uninitialised; a comparison that needs such a cell, or a cell past
    the end of a buffer, has no defined result. *)
Fixpoint strncmp (s1 s2 : list (option byte)) (n : nat) : outcome Z :=
  match n with
  | O => Done 0
  | S n' =>
      match s1, s2 with
      | Some c1 :: t1, Some c2 :: t2 =>
          if decide (c1 = c2)
          then (if decide (c1 = Byte.x00) then Done 0 else strncmp t1 t2 n')
          else Done (byte_val c1 - byte_val c2)
      | _, _ => Fault Uninitialised
      end
  end.

(** An automatic array of [n] bytes after [fread] delivered [got]. *)
Definition filled (n : nat) (got : list byte) : list (option byte) :=
  take n (map Some got ++ replicate n None).

(** The value of an [n]-byte unsigned integer variable after [fread]
    delivered [got] into it: defined only if all [n] bytes arrived. *)
Definition uint_of (n : nat) (got : list byte) : outcome Z :=
  if decide (length got = n) then Done (le_value got) else Fault Uninitialised.

(* ===================================================================== *)
(** * The world: heap buffers, files, standard streams                    *)
(* ===================================================================== *)

(** A buffer obtained from [malloc]: its bytes and whether it is still
    allocated.  The program only ever forms pointers to the first byte of
    a buffer (or integers used as pointers), so the heap is keyed by base
    address. *)
Record block : Type := Block { blk_bytes : list byte; blk_live : bool }.

Inductive node : Type :=
| RegularFile (data : list byte)
| Unopenable.               (* a path [fopen] refuses, in any mode *)

Record World : Type := mkWorld {
  heap : gmap Z block;
  fs : gmap string node;
  stderr : list string;
  stdout : list string
}.

Definition set_heap (f : gmap Z block -> gmap Z block) (w : World) : World :=
  mkWorld (f (heap w)) (fs w) (stderr w) (stdout w).
Definition set_fs (f : gmap string node -> gmap string node) (w : World) : World :=
  mkWorld (heap w) (f (fs w)) (stderr w) (stdout w).
Definition to_stderr (line : string) (w : World) : World :=
  mkWorld (heap w) (fs w) (stderr w ++ [line]) (stdout w).
Definition to_stdout (line : string) (w : World) : World :=
  mkWorld (heap w) (fs w) (stderr w) (stdout w ++ [line]).

(** The parts of the C library the header leaves to its environment:
    where [malloc] places a new buffer, and zlib's [compressBound] and
    [compress] ([zlib_compress destLen source] gives the return code, the
    updated [*destLen] and the bytes put in [dest]). *)
Class Platform : Type := {
  malloc_addr : gmap Z block -> Z -> Z;
  compressBound : Z -> Z;
  zlib_compress : Z -> list byte -> Z * (Z * list byte)
}.

(** A sample allocator: buffers are laid out one after another, 16 bytes
    apart, from address 4096. *)
Definition bump_malloc (h : gmap Z block) (n : Z) : Z :=
  4096 + 16 * Z.of_nat (size h).

Definition sample_platform : Platform :=
  {| malloc_addr := bump_malloc;
     compressBound := deflate_bound;
     zlib_compress := stored_compress |}.

(** Computations: they read and update the world, and may fault. *)
Definition M (A : Type) : Type := World -> outcome (A * World).

Definition ret {A} (x : A) : M A := fun w => Done (x, w).

Definition bind {A B} (m : M A) (k : A -> M B) : M B :=
  fun w => match m w with
           | Done (x, w') => k x w'
           | Fault f => Fault f
           end.

Definition lift {A} (o : outcome A) : M A :=
  fun w => match o with
           | Done x => Done (x, w)
           | Fault f => Fault f
           end.

Notation "x <- m ; k" := (bind m (fun x => k))
  (at level 20, m at level 100, k at level 200, only parsing).

(** Case analysis on the next [match] of a run. *)
Ltac run_step H :=
  match type of H with
  | context [match ?x with _ => _ end] =>
      let E := fresh "E" in destruct x eqn:E; simpl in H; try discriminate H
  end.

(** ** Arrays held through a pointer ([None] is the null pointer) *)

Definition elems {A} (a : option (list A)) : list A := default [] a.

Definition array_get {A} (a : option (list A)) (i : Z) : outcome A :=
  match a with
  | None => Fault (NullPointer i)
  | Some l =>
      if i <? 0 then Fault (OutOfBounds i)
      else match l !! Z.to_nat i with
           | Some x => Done x
           | None => Fault (OutOfBounds i)
           end
  end.

Definition array_set {A} (a : option (list A)) (i : Z) (x : A)
  : outcome (option (list A)) :=
  match a with
  | None => Fault (NullPointer i)
  | Some l =>
      if (i <? 0) || (Z.of_nat (length l) <=? i) then Fault (OutOfBounds i)
      else Done (Some (<[Z.to_nat i := x]> l))
  end.

(** [realloc(a, n * sizeof(A))]: the old elements are kept; a new cell
    holds [d] until it is assigned (no new cell is read before that). *)
Definition realloc {A} (a : option (list A)) (n : Z) (d : A) : option (list A) :=
  Some (take (Z.to_nat n) (elems a ++ replicate (Z.to_nat n) d)).

(** ** Standard streams and files *)

(** [perror(msg)] and [fprintf(stderr, msg)]: one line on [stderr] (the
    [strerror] suffix of [perror] is left out). *)
Definition perror (msg : string) : M unit := fun w => Done (tt, to_stderr msg w).
Definition fprintf_stderr (msg : string) : M unit :=
  fun w => Done (tt, to_stderr msg w).
Definition printf_line (msg : string) : M unit :=
  fun w => Done (tt, to_stdout msg w).

(** [fopen(path, "rb")]: the file's bytes, or [None] for a null [FILE *]. *)
Definition fopen_rb (path : string) : M (option (list byte)) :=
  fun w => match fs w !! c_str path with
           | Some (RegularFile data) => Done (Some data, w)
           | _ => Done (None, w)
           end.

(** [fopen(path, "wb")]: creates or truncates the file; [false] for a
    null [FILE *]. *)
Definition fopen_wb (path : string) : M bool :=
  fun w => match fs w !! c_str path with
           | Some Unopenable => Done (false, w)
           | _ => Done (true, set_fs (<[c_str path := RegularFile []]>) w)
           end.

(** [fclose] of a stream opened by [fopen_wb] on which [data] was
    written. *)
Definition fclose_wb (path : string) (data : list byte) : M unit :=
  fun w => Done (tt, set_fs (<[c_str path := RegularFile data]>) w).

(** An input stream: the file's bytes and the position indicator. *)
Record stream : Type := Stream { s_data : list byte; s_pos : Z }.

(** [fread(buf, 1, n, f)]: the bytes delivered (fewer than [n] at end of
    file) and the advanced stream. *)
Definition fread (n : Z) (f : stream) : list byte * stream :=
  let got := take (Z.to_nat n) (drop (Z.to_nat (s_pos f)) (s_data f)) in
  (got, Stream (s_data f) (s_pos f + Z.of_nat (length got))).

(** [fseek(f, off, SEEK_SET)] with [off] a [uint64_t] converted to
    [long]; a negative offset is refused and the position stays. *)
Definition fseek_set (f : stream) (off : Z) : stream :=
  if to_long off <? 0 then f else Stream (s_data f) (to_long off).

(** ** Heap buffers *)

(** [malloc(n)]: a fresh buffer, no byte of it initialised, at the
    address the platform chooses. *)
Definition malloc `{Platform} (n : Z) : M Z :=
  fun w => let p := malloc_addr (heap w) n in
           Done (p, set_heap (<[p := Block [] true]>) w).

(** Filling a buffer (by [fread] or by the compressor). *)
Definition store (p : Z) (bs : list byte) : M unit :=
  fun w => match heap w !! p with
           | Some b =>
               if blk_live b
               then Done (tt, set_heap (<[p := Block bs true]>) w)
               else Fault (UseAfterFree p)
           | None => Fault (BadAddress p)
           end.

(** [free(p)]: the buffer stays in the heap map, marked as freed. *)
Definition free (p : Z) : M unit :=
  fun w => Done (tt, set_heap (alter (fun b => Block (blk_bytes b) false) p) w).

(** Reading [n] bytes at address [p], as [fwrite(p, 1, n, f)] does.
    Nothing is read when [n] is 0. *)
Definition load (p n : Z) : M (list byte) :=
  fun w =>
    if n =? 0 then Done ([], w)
    else match heap w !! p with
         | Some b =>
             if blk_live b
             then (if n <=? Z.of_nat (length (blk_bytes b))
                   then Done (take (Z.to_nat n) (blk_bytes b), w)
                   else Fault (OutOfBounds n))
             else Fault (UseAfterFree p)
         | None => Fault (BadAddress p)
         end.

(* ===================================================================== *)
(** * The archive                                                         *)
(* ===================================================================== *)

(** [#define MAGIC "AAF\x00"]: the four characters of the literal (the
    array ends with one more NUL). *)
Definition MAGIC : list byte :=
  [byte_of_Z 0x41; byte_of_Z 0x41; byte_of_Z 0x46; Byte.x00].
Definition VERSION : Z := 1.
Definition FLAG_ALL_COMPRESSED : Z := 0x01.
Definition CHUNK_FLAG_COMPRESSED : Z := 0x01.

(** [sizeof(HSGAAEntry)]: a pointer and two [uint64_t]. *)
Definition sizeof_HSGAAEntry : Z := 24.

Definition hash32 (name : string) : Z :=
  let crc := crc32 0 None 0 in
  crc32 crc (Some (string_bytes name)) (strlen name).

Record HSGAAEntry : Type := mkEntry {
  name : string;     (* File name *)
  offset : Z;        (* Offset in the archive file *)
  size : Z           (* Size of the file data *)
}.

Record HSGAAArchive : Type := mkArchive {
  entries : option (list HSGAAEntry);
  entry_count : Z;
  image_chunks : option (list Z);       (* pointers to the chunk buffers *)
  image_chunk_sizes : option (list Z);
  image_chunk_count : Z;
  compress : Z
}.

(** The content of an entry cell that was allocated but not yet
    assigned. *)
Definition blank_entry : HSGAAEntry := mkEntry EmptyString 0 0.

Definition hsgaa_create_archive (compress : Z) : HSGAAArchive :=
  mkArchive None 0 None None 0 compress.

(** [hsgaa_add_file].  The inner [option] is [None] on the early return
    of the failed-compression branch. *)
Definition hsgaa_add_file `{Platform} (archive : HSGAAArchive)
    (file_path : string) : M HSGAAArchive :=
  file <- fopen_rb file_path ;
  match file with
  | None => _ <- perror "Failed to open file" ; ret archive
  | Some contents =>
      let raw_size := Z.of_nat (length contents) in
      raw_data <- malloc raw_size ;
      _ <- store raw_data contents ;
      let signature := crc32 (crc32 0 None 0) (Some contents) raw_size in
      stored <-
        (if decide (compress archive <> 0) then
           compressed_data <- malloc (compressBound raw_size) ;
           let '(code, (compressed_size, out)) := zlib_compress 0 contents in
           if decide (code <> Z_OK) then
             _ <- fprintf_stderr "Compression failed" ;
             _ <- free raw_data ;
             _ <- free compressed_data ;
             ret None
           else
             _ <- store compressed_data out ;
             ret (Some (compressed_data, compressed_size))
         else ret (Some (raw_data, raw_size))) ;
      match stored with
      | None => ret archive
      | Some (compressed_data, compressed_size) =>
          let entries1 :=
            realloc (entries archive) (entry_count archive + 1) blank_entry in
          let chunks1 :=
            realloc (image_chunks archive) (image_chunk_count archive + 1) 0 in
          let sizes1 :=
            realloc (image_chunk_sizes archive)
              (image_chunk_count archive + 1) 0 in
          entry_offset <-
            (if decide (image_chunk_count archive <> 0)
             then lift (array_get chunks1 (image_chunk_count archive - 1))
             else ret 0) ;
          entries2 <-
            lift (array_set entries1 (entry_count archive)
                    (mkEntry (strdup file_path) entry_offset compressed_size)) ;
          chunks2 <-
            lift (array_set chunks1 (image_chunk_count archive)
                    compressed_data) ;
          sizes2 <-
            lift (array_set sizes1 (image_chunk_count archive)
                    compressed_size) ;
          _ <- free raw_data ;
          ret (mkArchive entries2 (entry_count archive + 1)
                 chunks2 sizes2 (image_chunk_count archive + 1)
                 (compress archive))
      end
  end.

(** ** Writing *)

(** The header's [toc_offset] as [hsgaa_write_archive] computes it. *)
Definition toc_offset_of (archive : HSGAAArchive) : Z :=
  wrap64 (4 + 1 + 1 + 8 + sizeof_HSGAAEntry * entry_count archive).

(** The four [fwrite]s of the header.  The version is written by
    [fwrite(VERSION, sizeof(uint8_t), 1, f)]: one byte read at the
    address [VERSION]. *)
Definition write_header (archive : HSGAAArchive) : M (list byte) :=
  let flags := if decide (compress archive <> 0) then FLAG_ALL_COMPRESSED else 0 in
  let toc_offset := toc_offset_of archive in
  version <- load VERSION 1 ;
  ret (take 4 MAGIC ++ version ++ le_bytes 1 flags ++ le_bytes 8 toc_offset).

(** The loop over the chunks, from index [i], [n] rounds. *)
Fixpoint write_chunks (archive : HSGAAArchive) (n : nat) (i : Z)
  : M (list byte) :=
  match n with
  | O => ret []
  | S n' =>
      chunk <- lift (array_get (image_chunks archive) i) ;
      chunk_size <- lift (array_get (image_chunk_sizes archive) i) ;
      data <- load chunk chunk_size ;
      rest <- write_chunks archive n' (i + 1) ;
      ret (data ++ rest)
  end.

(** One round of the table-of-contents loop. *)
Definition write_toc_entry (entry : HSGAAEntry) : list byte :=
  let name_len := wrap32 (strlen (name entry)) in
  let name_hash := hash32 (name entry) in
  le_bytes 4 name_hash
    ++ le_bytes 8 (offset entry)
    ++ le_bytes 8 (size entry)
    ++ le_bytes 4 name_len
    ++ take (Z.to_nat name_len) (string_bytes (name entry)).

Fixpoint write_toc_entries (archive : HSGAAArchive) (n : nat) (i : Z)
  : outcome (list byte) :=
  match n with
  | O => Done []
  | S n' =>
      entry <~ array_get (entries archive) i ;
      rest <~ write_toc_entries archive n' (i + 1) ;
      Done (write_toc_entry entry ++ rest)
  end.

(** The table of contents.  The count is written by
    [fwrite(&archive->entry_count, sizeof(uint32_t), 1, f)]: the first
    four bytes of a [size_t]. *)
Definition write_toc (archive : HSGAAArchive) : outcome (list byte) :=
  records <~ write_toc_entries archive (Z.to_nat (entry_count archive)) 0 ;
  Done (take 4 (le_bytes 8 (entry_count archive)) ++ records).

Definition hsgaa_write_archive (archive : HSGAAArchive) (output_path : string)
  : M unit :=
  f <- fopen_wb output_path ;
  if negb f then perror "Failed to open archive file for writing"
  else
    header <- write_header archive ;
    chunks <-
      write_chunks archive (Z.to_nat (image_chunk_count archive)) 0 ;
    toc <- lift (write_toc archive) ;
    fclose_wb output_path (header ++ chunks ++ toc).

(** ** Reading *)

(** The loop of [hsgaa_read_archive] over the records, [n] rounds. *)
Fixpoint read_entries (n : nat) (f : stream) : outcome (list HSGAAEntry) :=
  match n with
  | O => Done []
  | S n' =>
      let '(name_hash, f) := fread 4 f in
      let '(offset, f) := fread 8 f in
      let '(size, f) := fread 8 f in
      let '(name_len, f) := fread 4 f in
      offset <~ uint_of 8 offset ;
      size <~ uint_of 8 size ;
      name_len <~ uint_of 4 name_len ;
      (* [malloc(name_len + 1)] in [uint32_t] arithmetic *)
      if decide (wrap32 (name_len + 1) = 0) then Fault BufferOverflow
      else
        let '(name, f) := fread name_len f in
        if decide (Z.of_nat (length name) <> name_len) then Fault Uninitialised
        else
          rest <~ read_entries n' f ;
          Done (mkEntry (string_of_list_byte name) offset size :: rest)
  end.

(** [hsgaa_read_archive]; [None] is the null result. *)
Definition hsgaa_read_archive (archive_path : string)
  : M (option HSGAAArchive) :=
  file <- fopen_rb archive_path ;
  match file with
  | None =>
      _ <- perror "Failed to open archive file for reading" ; ret None
  | Some data =>
      let f := Stream data 0 in
      let '(magic, f) := fread 4 f in
      cmp <- lift (strncmp (filled 4 magic) (map Some (MAGIC ++ [Byte.x00])) 4) ;
      if decide (cmp <> 0) then
        _ <- fprintf_stderr "Invalid magic in archive" ; ret None
      else
        let '(version, f) := fread 1 f in
        let '(flags, f) := fread 1 f in
        let '(toc_offset, f) := fread 8 f in
        toc_offset <- lift (uint_of 8 toc_offset) ;
        let f := fseek_set f toc_offset in
        let '(entry_count, f) := fread 4 f in
        entry_count <- lift (uint_of 4 entry_count) ;
        flags <- lift (uint_of 1 flags) ;
        let archive := hsgaa_create_archive (Z.land flags FLAG_ALL_COMPRESSED) in
        entries <- lift (read_entries (Z.to_nat entry_count) f) ;
        ret (Some (mkArchive (Some entries) entry_count
                     (image_chunks archive) (image_chunk_sizes archive)
                     (image_chunk_count archive) (compress archive)))
  end.

(** ** Listing and extracting *)

Fixpoint list_entries_from (archive : HSGAAArchive) (n : nat) (i : Z) : M unit :=
  match n with
  | O => ret tt
  | S n' =>
      entry <- lift (array_get (entries archive) i) ;
      _ <- printf_line (c_str (name entry)) ;
      list_entries_from archive n' (i + 1)
  end.

Definition hsgaa_list_entries (archive : HSGAAArchive) : M unit :=
  list_entries_from archive (Z.to_nat (entry_count archive)) 0.

(** The loop of [hsgaa_extract_file] from index [i], [n] rounds left. *)
Fixpoint extract_from (archive : HSGAAArchive) (file_name output_path : string)
    (n : nat) (i : Z) : M unit :=
  match n with
  | O =>
      fprintf_stderr ("File not found in archive: " +:+ c_str file_name)
  | S n' =>
      entry <- lift (array_get (entries archive) i) ;
      if decide (strcmp (name entry) file_name = 0) then
        out <- fopen_wb output_path ;
        if negb out then perror "Failed to open file for extraction"
        else
          chunk <- lift (array_get (image_chunks archive) i) ;
          chunk_size <- lift (array_get (image_chunk_sizes archive) i) ;
          data <- load chunk chunk_size ;
          fclose_wb output_path data
      else extract_from archive file_name output_path n' (i + 1)
  end.

Definition hsgaa_extract_file (archive : HSGAAArchive)
    (file_name output_path : string) : M unit :=
  extract_from archive file_name output_path
    (Z.to_nat (entry_count archive)) 0.

(* ===================================================================== *)
(** * Building, and the states the claims speak about                     *)
(* ===================================================================== *)

(** Adding several files in turn. *)
Fixpoint add_files `{Platform} (archive : HSGAAArchive) (paths : list string)
  : M HSGAAArchive :=
  match paths with
  | [] => ret archive
  | path :: rest =>
      archive' <- hsgaa_add_file archive path ;
      add_files archive' rest
  end.

(** An archive under construction: created empty, then grown by
    completed calls of [hsgaa_add_file]. *)
Inductive built `{Platform} : HSGAAArchive -> Prop :=
| built_create (compress : Z) : built (hsgaa_create_archive compress)
| built_add (archive archive' : HSGAAArchive) (file_path : string)
    (w w' : World) :
    built archive ->
    hsgaa_add_file archive file_path w = Done (archive', w') ->
    built archive'.

(** The arrays of an archive agree with their counts. *)
Definition counts_ok (archive : HSGAAArchive) : Prop :=
  entry_count archive = Z.of_nat (length (elems (entries archive)))
  /\ image_chunk_count archive = Z.of_nat (length (elems (image_chunks archive)))
  /\ image_chunk_count archive
     = Z.of_nat (length (elems (image_chunk_sizes archive))).

(** Entry names that are plain C strings (no inner NUL). *)
Definition plain_names (archive : HSGAAArchive) : Prop :=
  Forall (fun e => c_str (name e) = name e) (elems (entries archive)).

(** The round trip of the specification's testable properties: build
    from [paths], write to [archive_path], read that file back, extract
    [file_name] to [output_path] and look at what was extracted. *)
Definition roundtrip `{Platform} (compress : Z) (paths : list string)
    (archive_path file_name output_path : string) : M (option (list byte)) :=
  archive <- add_files (hsgaa_create_archive compress) paths ;
  _ <- hsgaa_write_archive archive archive_path ;
  loaded <- hsgaa_read_archive archive_path ;
  match loaded with
  | None => ret None
  | Some loaded =>
      _ <- hsgaa_extract_file loaded file_name output_path ;
      fopen_rb output_path
  end.

(** ** The layout the specification gives for the table of contents *)

Definition CRC32 (bs : list byte) : Z :=
  crc32 0 (Some bs) (Z.of_nat (length bs)).

(** "32-bit name_hash, 64-bit offset, 64-bit size, 32-bit name_length,
    then name_length raw UTF-8 bytes (no terminator)". *)
Definition spec_toc_record (e : HSGAAEntry) : list byte :=
  let utf8 := string_bytes (name e) in
  le_bytes 4 (CRC32 utf8)
    ++ le_bytes 8 (offset e)
    ++ le_bytes 8 (size e)
    ++ le_bytes 4 (Z.of_nat (length utf8))
    ++ utf8.

(** "32-bit entry count, then per entry in insertion order ...". *)
Definition spec_toc (es : list HSGAAEntry) : list byte :=
  le_bytes 4 (Z.of_nat (length es)) ++ concat (map spec_toc_record es).

(** The entry count a table of contents declares (its first 4 bytes). *)
Definition declared_count (toc : list byte) : Z := le_value (take 4 toc).

(** Total number of stored chunk bytes of an archive. *)
Definition chunk_bytes_total (archive : HSGAAArchive) : Z :=
  foldr Z.add 0 (elems (image_chunk_sizes archive)).

(** ** Sample states *)

Definition bytes_of (l : list Z) : list byte := map byte_of_Z l.

(** A file system with [a.bin] = 01 02 03 and [b.bin] = 04 05 06 07 08,
    and an empty heap: no object lives at address 1. *)
Definition sample_world : World :=
  mkWorld ∅
    (<["a.bin"%string := RegularFile (bytes_of [1; 2; 3])]>
       (<["b.bin"%string := RegularFile (bytes_of [4; 5; 6; 7; 8])]> ∅))
    [] [].

(** The archive [hsgaa_add_file] builds from [a.bin] and then [b.bin] on
    the sample platform, compression off. *)
Definition sample_built : HSGAAArchive :=
  mkArchive
    (Some [mkEntry "a.bin" 0 3; mkEntry "b.bin" 4096 5]) 2
    (Some [4096; 4112]) (Some [3; 5]) 2 0.

(** The archive file of the specification's concrete scenario: one file
    [a.bin] holding 01 02 03, compression off; flags 0, the chunk at
    offset 14, the table of contents at offset 17. *)
Definition scenario_archive_bytes : list byte :=
  MAGIC ++ bytes_of [1; 0] ++ le_bytes 8 17
    ++ bytes_of [1; 2; 3]
    ++ spec_toc [mkEntry "a.bin" 14 3].

Definition scenario_world : World :=
  set_fs (<["scenario.aaf"%string := RegularFile scenario_archive_bytes]>)
    sample_world.

(** What [hsgaa_read_archive] makes of that file. *)
Definition scenario_loaded : HSGAAArchive :=
  mkArchive (Some [mkEntry "a.bin" 14 3]) 1 None None 0 0.

(** ** States used by the further properties *)

(** Every pointer kept in [image_chunks] refers to a buffer that was
    freed. *)
Definition dangling (w : World) (archive : HSGAAArchive) : Prop :=
  Forall (fun p => exists b, heap w !! p = Some b /\ blk_live b = false)
    (elems (image_chunks archive)).

(** What holds of an archive under construction without compression,
    together with the world it lives in. *)
Definition plain_state (w : World) (archive : HSGAAArchive) : Prop :=
  compress archive = 0
  /\ counts_ok archive
  /\ entry_count archive = image_chunk_count archive
  /\ map size (elems (entries archive)) = elems (image_chunk_sizes archive)
  /\ dangling w archive.

(** [fwrite(p, 1, n, f)] is a defined read that takes [data]: nothing is
    asked for, or an allocated buffer starts at [p] and holds at least
    [n] bytes. *)
Definition readable (w : World) (p n : Z) (data : list byte) : Prop :=
  (n = 0 /\ data = [])
  \/ exists b,
       heap w !! p = Some b /\ blk_live b = true
       /\ 0 < n <= Z.of_nat (length (blk_bytes b))
       /\ data = take (Z.to_nat n) (blk_bytes b).

(** [file_name] compares equal to entry [j] and to no entry before it. *)
Definition first_match (es : list HSGAAEntry) (file_name : string) (j : nat)
  : Prop :=
  (exists e, es !! j = Some e /\ strcmp (name e) file_name = 0)
  /\ forall k e, (k < j)%nat -> es !! k = Some e ->
                 strcmp (name e) file_name <> 0.

(** An entry whose fields survive the table of contents: a name without
    inner NUL and shorter than 2^32 - 1, an offset and a size that are
    [uint64_t] values. *)
Definition entry_fits (e : HSGAAEntry) : Prop :=
  c_str (name e) = name e
  /\ strlen (name e) < 2 ^ 32 - 1
  /\ 0 <= offset e < 2 ^ 64
  /\ 0 <= size e < 2 ^ 64.

(** A record of the table of contents with [hash] in its first field. *)
Definition toc_record_with (hash : list byte) (e : HSGAAEntry) : list byte :=
  hash
    ++ le_bytes 8 (offset e)
    ++ le_bytes 8 (size e)
    ++ le_bytes 4 (strlen (name e))
    ++ string_bytes (name e).

(** An archive file: the 14-byte header whose [toc_offset] is the
    position right after [body], then [body], then [toc]. *)
Definition archive_image (version flags : byte) (body toc : list byte)
  : list byte :=
  MAGIC ++ [version; flags]
    ++ le_bytes 8 (14 + Z.of_nat (length body)) ++ body ++ toc.

(** The unread part of an input stream is [rest]. *)
Definition stream_at (f : stream) (rest : list byte) : Prop :=
  0 <= s_pos f /\ drop (Z.to_nat (s_pos f)) (s_data f) = rest.

(** A process state in which a byte lives at address 1 and a three-byte
    buffer at 4096, and an archive whose only chunk is that buffer. *)
Definition live_world : World :=
  mkWorld
    (<[1 := Block (bytes_of [1]) true]>
       (<[4096 := Block (bytes_of [1; 2; 3]) true]> ∅))
    (<["locked.out"%string := Unopenable]> ∅) [] [].

Definition live_archive : HSGAAArchive :=
  mkArchive (Some [mkEntry "a.bin" 0 3]) 1 (Some [4096]) (Some [3]) 1 0.

(** The world in which [sample_built] is left by its two calls of
    [hsgaa_add_file]: both chunk buffers are in the heap, freed. *)
Definition sample_built_world : World :=
  set_heap
    (<[4112 := Block (bytes_of [4; 5; 6; 7; 8]) false]>)
    (set_heap (<[4096 := Block (bytes_of [1; 2; 3]) false]>) sample_world).

(** An archive whose only chunk has the size of one [HSGAAEntry], in a
    process state where that chunk and the byte at address 1 can be
    read. *)
Definition aligned_archive : HSGAAArchive :=
  mkArchive (Some [mkEntry "a.bin" 0 24]) 1 (Some [4096]) (Some [24]) 1 0.

Definition aligned_world : World :=
  mkWorld
    (<[1 := Block (bytes_of [1]) true]>
       (<[4096 := Block (replicate 24 (byte_of_Z 7)) true]> ∅))
    ∅ [] [].

(** Worlds holding one archive file each: a table of contents whose hash
    field is zero, and a header that stops after the flag byte. *)
Definition unhashed_world : World :=
  mkWorld ∅
    (<["unhashed.aaf"%string :=
         RegularFile
           (archive_image (byte_of_Z 9) (byte_of_Z 1) (bytes_of [1; 2; 3])
              (le_bytes 4 1
                 ++ toc_record_with (le_bytes 4 0) (mkEntry "a.bin" 14 3)))]>
       ∅)
    [] [].

Definition short_header_world : World :=
  mkWorld ∅
    (<["short.aaf"%string := RegularFile (MAGIC ++ bytes_of [1; 0])]> ∅)
    [] [].

(** A process state in which a byte lives at address 1 and both chunk
    pointers of [sample_built] refer to allocated buffers holding the
    bytes of [a.bin] and [b.bin]. *)
Definition sample_live_world : World :=
  mkWorld
    (<[1 := Block (bytes_of [1]) true]>
       (<[4096 := Block (bytes_of [1; 2; 3]) true]>
          (<[4112 := Block (bytes_of [4; 5; 6; 7; 8]) true]> ∅)))
    ∅ [] [].

(** A file system with one empty file and one file of two bytes. *)
Definition empty_file_world : World :=
  mkWorld ∅
    (<["empty.bin"%string := RegularFile []]>
       (<["two.bin"%string := RegularFile (bytes_of [7; 8])]> ∅))
    [] [].

(* ===================================================================== *)
(** * Facts about bytes and object representations                        *)
(* ===================================================================== *)

Lemma byte_val_range (b : byte) : 0 <= byte_val b < 256.
Proof.
  unfold byte_val. pose proof (Byte.to_N_bounded b). lia.
Qed.

Lemma byte_val_of_Z (z : Z) : byte_val (byte_of_Z z) = z mod 256.
Proof.
  unfold byte_val, byte_of_Z.
  assert (Hr : 0 <= z mod 256 < 256) by (apply Z.mod_pos_bound; lia).
  destruct (Byte.of_N (Z.to_N (z mod 256))) as [b|] eqn:E; simpl.
  - apply Byte.to_of_N in E. rewrite E. lia.
  - apply Byte.of_N_None_iff in E. lia.
Qed.

Lemma byte_of_Z_val (b : byte) : byte_of_Z (byte_val b) = b.
Proof.
  unfold byte_of_Z. pose proof (byte_val_range b) as Hr.
  rewrite Z.mod_small by lia. unfold byte_val.
  rewrite N2Z.id, Byte.of_to_N. reflexivity.
Qed.

Lemma byte_val_inj (a b : byte) : byte_val a = byte_val b -> a = b.
Proof.
  intros E. rewrite <- (byte_of_Z_val a), <- (byte_of_Z_val b), E. reflexivity.
Qed.

Lemma length_le_bytes (w : nat) (v : Z) : length (le_bytes w v) = w.
Proof.
  revert v. induction w as [|w IH]; intros v; simpl; [reflexivity|].
  rewrite IH. reflexivity.
Qed.

Lemma le_value_le_bytes (w : nat) (v : Z) :
  le_value (le_bytes w v) = v mod 2 ^ (8 * Z.of_nat w).
Proof.
  revert v. induction w as [|w IH]; intros v.
  - simpl. rewrite Z.mod_1_r. reflexivity.
  - cbn [le_bytes le_value]. rewrite IH, byte_val_of_Z.
    replace (8 * Z.of_nat (S w)) with (8 + 8 * Z.of_nat w) by lia.
    rewrite Z.pow_add_r by lia. change (2 ^ 8) with 256.
    rewrite Z.rem_mul_r by lia. reflexivity.
Qed.

Lemma le_value_nonneg (bs : list byte) : 0 <= le_value bs.
Proof.
  induction bs as [|b bs IH]; simpl; [lia|].
  pose proof (byte_val_range b). lia.
Qed.

Lemma take_le_bytes (k j : nat) (v : Z) :
  take k (le_bytes (k + j) v) = le_bytes k v.
Proof.
  revert v. induction k as [|k IH]; intros v; simpl; [reflexivity|].
  rewrite IH. reflexivity.
Qed.

(** The first four bytes of a [size_t] below 2^32 are its value as a
    [uint32_t]. *)
Lemma declared_count_of_size_t (n : Z) (rest : list byte) :
  0 <= n < 2 ^ 32 ->
  declared_count (take 4 (le_bytes 8 n) ++ rest) = n.
Proof.
  intros Hn. unfold declared_count.
  change 8%nat with (4 + 4)%nat. rewrite take_le_bytes.
  rewrite take_app_length' by (rewrite length_le_bytes; reflexivity).
  rewrite le_value_le_bytes. change (2 ^ (8 * Z.of_nat 4)) with (2 ^ 32).
  apply Z.mod_small. exact Hn.
Qed.

(* ===================================================================== *)
(** * Facts about C strings                                               *)
(* ===================================================================== *)

Lemma char_val_inj (a b : ascii) : char_val a = char_val b -> a = b.
Proof.
  unfold char_val. intros E. apply N2Z.inj in E.
  rewrite <- (ascii_N_embedding a), <- (ascii_N_embedding b), E. reflexivity.
Qed.

Lemma char_val_NUL (c : ascii) : char_val c = 0 -> c = NUL.
Proof. intros E. apply char_val_inj. rewrite E. reflexivity. Qed.

Lemma c_str_idem (s : string) : c_str (c_str s) = c_str s.
Proof.
  induction s as [|c t IH]; simpl; [reflexivity|].
  destruct (decide (c = NUL)) as [E|N]; simpl; [reflexivity|].
  destruct (decide (c = NUL)); [contradiction|]. rewrite IH. reflexivity.
Qed.

(** [strcmp] returns 0 exactly when the two C strings are byte-equal up
    to their terminators. *)
Lemma strcmp_zero_iff (s1 s2 : string) :
  strcmp s1 s2 = 0 <-> c_str s1 = c_str s2.
Proof.
  revert s2. induction s1 as [|c1 t1 IH]; intros [|c2 t2]; simpl.
  - tauto.
  - destruct (decide (c2 = NUL)) as [E|N].
    + subst. split; reflexivity.
    + split; [|discriminate]. intros E. exfalso. apply N.
      apply char_val_NUL. lia.
  - destruct (decide (c1 = NUL)) as [E|N].
    + subst. split; reflexivity.
    + split; [|discriminate]. intros E. exfalso. apply N.
      apply char_val_NUL. lia.
  - destruct (decide (c1 = c2)) as [E|N].
    + subst c2. destruct (decide (c1 = NUL)) as [E|N]; [tauto|].
      rewrite IH. split; [congruence|]. intros E; injection E; tauto.
    + split.
      * intros E. exfalso. apply N. apply char_val_inj. lia.
      * destruct (decide (c1 = NUL)), (decide (c2 = NUL)); subst;
          try discriminate; try congruence.
Qed.

Lemma length_string_bytes (s : string) :
  length (string_bytes s) = String.length s.
Proof.
  unfold string_bytes, list_byte_of_string.
  induction s as [|c t IH]; simpl; [reflexivity|].
  f_equal. exact IH.
Qed.

(** For a buffer without inner NUL, the hash and the record of the writer
    are those of the specification's layout. *)
Lemma hash32_CRC32 (s : string) :
  c_str s = s -> hash32 s = CRC32 (string_bytes s).
Proof.
  intros E. unfold hash32, CRC32, strlen. simpl crc32 at 2.
  rewrite E, length_string_bytes. reflexivity.
Qed.

Lemma write_toc_entry_spec (e : HSGAAEntry) :
  c_str (name e) = name e ->
  strlen (name e) < 2 ^ 32 ->
  write_toc_entry e = spec_toc_record e.
Proof.
  intros E Hlen. unfold write_toc_entry, spec_toc_record.
  rewrite hash32_CRC32 by exact E.
  assert (Hs : strlen (name e) = Z.of_nat (length (string_bytes (name e)))).
  { unfold strlen. rewrite E, length_string_bytes. reflexivity. }
  unfold wrap32. rewrite Z.mod_small by (rewrite Hs in *; lia).
  rewrite Hs, Nat2Z.id, firstn_all. reflexivity.
Qed.

(* ===================================================================== *)
(** * Facts about arrays                                                  *)
(* ===================================================================== *)

Lemma realloc_grow {A} (a : option (list A)) (n : Z) (d : A) :
  n = Z.of_nat (length (elems a)) ->
  realloc a (n + 1) d = Some (elems a ++ [d]).
Proof.
  intros ->. unfold realloc. f_equal.
  replace (Z.to_nat (Z.of_nat (length (elems a)) + 1))
    with (length (elems a) + 1)%nat by lia.
  rewrite take_app_add. rewrite Nat.add_1_r. reflexivity.
Qed.

Lemma array_set_last {A} (l : list A) (n : Z) (d x : A) :
  n = Z.of_nat (length l) ->
  array_set (Some (l ++ [d])) n x = Done (Some (l ++ [x])).
Proof.
  intros ->. unfold array_set. rewrite length_app. simpl length.
  destruct (Z.ltb_spec (Z.of_nat (length l)) 0) as [?|_]; [lia|].
  destruct (Z.leb_spec (Z.of_nat (length l + 1)) (Z.of_nat (length l)))
    as [?|_]; [lia|].
  simpl. rewrite Nat2Z.id.
  replace (length l) with (length l + 0)%nat at 1 by lia.
  rewrite insert_app_r. reflexivity.
Qed.

Lemma array_get_lookup {A} (l : list A) (i : nat) (x : A) :
  l !! i = Some x -> array_get (Some l) (Z.of_nat i) = Done x.
Proof.
  intros E. unfold array_get.
  destruct (Z.ltb_spec (Z.of_nat i) 0) as [?|_]; [lia|].
  rewrite Nat2Z.id, E. reflexivity.
Qed.

Lemma array_get_null {A} (i : Z) : array_get (@None (list A)) i = Fault (NullPointer i).
Proof. reflexivity. Qed.

(* ===================================================================== *)
(** * [hsgaa_add_file]                                                    *)
(* ===================================================================== *)

Section AddFile.
Context `{Platform}.

(** With compression requested, [compress] is handed [compressed_size],
    which was initialised to 0, as the room in the destination. *)
Lemma add_file_compress (archive : HSGAAArchive) (file_path : string)
    (w : World) :
  compress archive <> 0 ->
  (forall source, (zlib_compress 0 source).1 <> Z_OK) ->
  exists w',
    hsgaa_add_file archive file_path w = Done (archive, w')
    /\ fs w' = fs w
    /\ stdout w' = stdout w
    /\ (stderr w' = stderr w ++ ["Failed to open file"%string]
        \/ stderr w' = stderr w ++ ["Compression failed"%string]).
Proof.
  intros Hc Hz. unfold hsgaa_add_file, bind, fopen_rb.
  destruct (fs w !! c_str file_path) as [[contents|]|] eqn:Ef;
    try (eexists; split; [reflexivity|]; simpl; auto).
  unfold malloc, store. simpl. rewrite lookup_insert_eq. simpl.
  destruct (decide (compress archive <> 0)) as [_|N]; [|contradiction].
  simpl. specialize (Hz contents).
  destruct (zlib_compress 0 contents) as [code [compressed_size out]].
  simpl in Hz. destruct (decide (code <> Z_OK)) as [_|N]; [|contradiction].
  simpl. eexists. split; [reflexivity|]. simpl. auto.
Qed.

(** What a completed call does to an archive whose arrays agree with
    their counts: nothing, or one entry and one chunk appended. *)
Lemma add_file_result (archive archive' : HSGAAArchive) (file_path : string)
    (w w' : World) :
  counts_ok archive ->
  hsgaa_add_file archive file_path w = Done (archive', w') ->
  archive' = archive
  \/ exists chunk chunk_size,
       archive' =
         mkArchive
           (Some (elems (entries archive)
                    ++ [mkEntry (c_str file_path)
                          (if decide (image_chunk_count archive <> 0)
                           then default 0 (last (elems (image_chunks archive)))
                           else 0)
                          chunk_size]))
           (entry_count archive + 1)
           (Some (elems (image_chunks archive) ++ [chunk]))
           (Some (elems (image_chunk_sizes archive) ++ [chunk_size]))
           (image_chunk_count archive + 1)
           (compress archive).
Proof.
  intros (He & Hc & Hs) Hrun.
  unfold hsgaa_add_file, bind, fopen_rb in Hrun.
  destruct (fs w !! c_str file_path) as [[contents|]|];
    try (injection Hrun as <- _; left; reflexivity).
  unfold malloc, store in Hrun. simpl in Hrun.
  rewrite lookup_insert_eq in Hrun. simpl in Hrun.
  assert (Hadd : forall (chunk chunk_size : Z) (w1 : World),
    (entry_offset <-
       (if decide (image_chunk_count archive <> 0)
        then lift (array_get
               (realloc (image_chunks archive) (image_chunk_count archive + 1) 0)
               (image_chunk_count archive - 1))
        else ret 0) ;
     entries2 <-
       lift (array_set
               (realloc (entries archive) (entry_count archive + 1) blank_entry)
               (entry_count archive)
               (mkEntry (strdup file_path) entry_offset chunk_size)) ;
     chunks2 <-
       lift (array_set
               (realloc (image_chunks archive) (image_chunk_count archive + 1) 0)
               (image_chunk_count archive) chunk) ;
     sizes2 <-
       lift (array_set
               (realloc (image_chunk_sizes archive)
                  (image_chunk_count archive + 1) 0)
               (image_chunk_count archive) chunk_size) ;
     _ <- free (malloc_addr (heap w) (Z.of_nat (length contents))) ;
     ret (mkArchive entries2 (entry_count archive + 1) chunks2 sizes2
            (image_chunk_count archive + 1) (compress archive))) w1
    = Done (archive', w') ->
    exists chunk chunk_size, archive' =
         mkArchive
           (Some (elems (entries archive)
                    ++ [mkEntry (c_str file_path)
                          (if decide (image_chunk_count archive <> 0)
                           then default 0 (last (elems (image_chunks archive)))
                           else 0)
                          chunk_size]))
           (entry_count archive + 1)
           (Some (elems (image_chunks archive) ++ [chunk]))
           (Some (elems (image_chunk_sizes archive) ++ [chunk_size]))
           (image_chunk_count archive + 1)
           (compress archive)).
  { intros chunk chunk_size w1 Hrun1. exists chunk, chunk_size.
    rewrite (realloc_grow (entries archive)) in Hrun1 by exact He.
    rewrite !(realloc_grow (image_chunks archive)) in Hrun1 by exact Hc.
    rewrite (realloc_grow (image_chunk_sizes archive)) in Hrun1 by exact Hs.
    assert (Hsets : forall x y z,
      array_set (Some (elems (entries archive) ++ [blank_entry]))
        (entry_count archive) x = Done (Some (elems (entries archive) ++ [x]))
      /\ array_set (Some (elems (image_chunks archive) ++ [0]))
           (image_chunk_count archive) y
         = Done (Some (elems (image_chunks archive) ++ [y]))
      /\ array_set (Some (elems (image_chunk_sizes archive) ++ [0]))
           (image_chunk_count archive) z
         = Done (Some (elems (image_chunk_sizes archive) ++ [z]))).
    { intros x y z. rewrite !array_set_last by assumption. auto. }
    destruct (decide (image_chunk_count archive <> 0)) as [Hn|Hn].
    - destruct (elems (image_chunks archive)) as [|c cs _] eqn:Ecs
        using rev_ind; [simpl in Hc; lia|].
      rewrite length_app in Hc. simpl length in Hc.
      replace (image_chunk_count archive - 1) with (Z.of_nat (length cs))
        in Hrun1 by lia.
      unfold bind, lift in Hrun1.
      rewrite (array_get_lookup _ _ c) in Hrun1.
      2:{ rewrite lookup_app_l by (rewrite length_app; simpl; lia).
          rewrite lookup_app_r by lia. rewrite Nat.sub_diag. reflexivity. }
      destruct (Hsets (mkEntry (strdup file_path) c chunk_size) chunk chunk_size)
        as (-> & -> & ->) in Hrun1.
      rewrite last_snoc. simpl. injection Hrun1 as <- _. reflexivity.
    - unfold bind, lift, ret in Hrun1.
      destruct (Hsets (mkEntry (strdup file_path) 0 chunk_size) chunk chunk_size)
        as (E1 & E2 & E3).
      rewrite E1, E2, E3 in Hrun1. simpl in Hrun1.
      injection Hrun1 as <- _. reflexivity. }
  destruct (decide (compress archive <> 0)) as [Hcomp|Hcomp].
  - simpl in Hrun.
    destruct (zlib_compress 0 contents) as [code [compressed_size out]].
    destruct (decide (code <> Z_OK)) as [Hcode|Hcode].
    + simpl in Hrun. injection Hrun as <- _. left; reflexivity.
    + unfold bind, store in Hrun. simpl in Hrun.
      rewrite lookup_insert_eq in Hrun. simpl in Hrun.
      right. eapply Hadd. exact Hrun.
  - simpl in Hrun. right. eapply Hadd. exact Hrun.
Qed.

Lemma add_file_counts_ok (archive archive' : HSGAAArchive)
    (file_path : string) (w w' : World) :
  counts_ok archive ->
  hsgaa_add_file archive file_path w = Done (archive', w') ->
  counts_ok archive'.
Proof.
  intros Hc Hrun.
  destruct (add_file_result _ _ _ _ _ Hc Hrun) as [->|(chunk & sz & ->)];
    [exact Hc|].
  destruct Hc as (He & Hcc & Hs).
  unfold counts_ok. simpl. rewrite !length_app. simpl. lia.
Qed.

(** Hence an archive created with compression on never gets an entry. *)
Lemma compressing_archive_stays_empty (archive : HSGAAArchive) :
  (forall source, (zlib_compress 0 source).1 <> Z_OK) ->
  built archive ->
  compress archive <> 0 ->
  archive = hsgaa_create_archive (compress archive).
Proof.
  intros Hz. induction 1 as [c|archive archive' file_path w w' _ IH Hrun];
    intros Hc; [reflexivity|].
  destruct (decide (compress archive <> 0)) as [Hc'|Hc'].
  - destruct (add_file_compress archive file_path w Hc' Hz) as (w1 & E & _).
    rewrite E in Hrun. injection Hrun as <- _. apply IH. exact Hc'.
  - exfalso. apply Hc.
    unfold hsgaa_add_file, bind, fopen_rb in Hrun.
    destruct (fs w !! c_str file_path) as [[contents|]|];
      try (injection Hrun as <- _; lia).
    unfold malloc, store in Hrun. simpl in Hrun.
    rewrite lookup_insert_eq in Hrun. simpl in Hrun.
    destruct (decide (compress archive <> 0)); [contradiction|].
    simpl in Hrun. unfold bind, lift, ret, free in Hrun.
    repeat run_step Hrun. injection Hrun as <- _. simpl. lia.
Qed.

End AddFile.

(* ===================================================================== *)
(** * Archives under construction                                         *)
(* ===================================================================== *)

Lemma built_invariant `{Platform} (archive : HSGAAArchive) :
  built archive -> counts_ok archive /\ plain_names archive.
Proof.
  induction 1 as [c|archive archive' file_path w w' _ [IHc IHn] Hrun].
  - split; [repeat split|constructor].
  - destruct (add_file_result _ _ _ _ _ IHc Hrun) as [->|(chunk & sz & ->)];
      [split; assumption|].
    split.
    + exact (add_file_counts_ok _ _ _ _ _ IHc Hrun).
    + unfold plain_names in *. simpl. apply Forall_app. split; [exact IHn|].
      constructor; [|constructor]. simpl. apply c_str_idem.
Qed.

(* ===================================================================== *)
(** * The writer                                                          *)
(* ===================================================================== *)

Lemma write_toc_entries_from (archive : HSGAAArchive) (n i : nat) :
  (i + n = length (elems (entries archive)))%nat ->
  write_toc_entries archive n (Z.of_nat i)
  = Done (concat (map write_toc_entry (drop i (elems (entries archive))))).
Proof.
  revert i. induction n as [|n IH]; intros i Hlen.
  - rewrite drop_ge by lia. reflexivity.
  - destruct (entries archive) as [l|] eqn:El; [|simpl in Hlen; lia].
    simpl in Hlen. destruct (lookup_lt_is_Some_2 l i) as [e Ee]; [lia|].
    cbn [write_toc_entries]. rewrite El, (array_get_lookup _ _ _ Ee).
    cbn [obind]. replace (Z.of_nat i + 1) with (Z.of_nat (S i)) by lia.
    rewrite IH by (simpl; lia). simpl elems.
    rewrite (drop_S _ _ _ Ee). reflexivity.
Qed.

Lemma write_toc_records (archive : HSGAAArchive) :
  entry_count archive = Z.of_nat (length (elems (entries archive))) ->
  write_toc archive
  = Done (take 4 (le_bytes 8 (entry_count archive))
            ++ concat (map write_toc_entry (elems (entries archive)))).
Proof.
  intros He. unfold write_toc. rewrite He at 1. rewrite Nat2Z.id.
  rewrite (write_toc_entries_from archive _ 0) by reflexivity.
  reflexivity.
Qed.

Lemma spec_records (es : list HSGAAEntry) :
  Forall (fun e => c_str (name e) = name e) es ->
  Forall (fun e => strlen (name e) < 2 ^ 32) es ->
  map write_toc_entry es = map spec_toc_record es.
Proof.
  induction 1 as [|e es He _ IH]; intros Hlen; [reflexivity|].
  inversion Hlen; subst. simpl.
  rewrite write_toc_entry_spec by assumption. rewrite IH by assumption.
  reflexivity.
Qed.

(* ===================================================================== *)
(** * The reader                                                          *)
(* ===================================================================== *)

Lemma uint_of_nonneg (n : nat) (got : list byte) (v : Z) :
  uint_of n got = Done v -> 0 <= v.
Proof.
  unfold uint_of. destruct (decide (length got = n)); [|discriminate].
  intros [= <-]. apply le_value_nonneg.
Qed.

Lemma read_entries_length (n : nat) (f : stream) (es : list HSGAAEntry) :
  read_entries n f = Done es -> length es = n.
Proof.
  revert f es. induction n as [|n IH]; intros f es Hrun.
  - injection Hrun as <-. reflexivity.
  - cbn [read_entries] in Hrun. unfold fread, obind in Hrun. simpl in Hrun.
    repeat run_step Hrun.
    injection Hrun as <-. simpl. f_equal. eapply IH. eassumption.
Qed.

(** Whatever file it parses, [hsgaa_read_archive] returns the archive of
    [hsgaa_create_archive] with only [entries] and [entry_count] set. *)
Lemma read_archive_shape (archive_path : string) (w w' : World)
    (archive : HSGAAArchive) :
  hsgaa_read_archive archive_path w = Done (Some archive, w') ->
  w' = w
  /\ image_chunk_count archive = 0
  /\ image_chunks archive = None
  /\ image_chunk_sizes archive = None
  /\ exists es, entries archive = Some es
                /\ entry_count archive = Z.of_nat (length es).
Proof.
  intros Hrun. unfold hsgaa_read_archive, bind, fopen_rb in Hrun.
  destruct (fs w !! c_str archive_path) as [[data|]|]; try discriminate.
  unfold fread, lift in Hrun. simpl in Hrun.
  destruct (strncmp _ _ 4) as [cmp|]; [|discriminate].
  destruct (decide (cmp <> 0)); [discriminate|].
  destruct (uint_of 8 _) as [toc_offset|]; [|discriminate].
  destruct (uint_of 4 _) as [count|] eqn:Ecount; [|discriminate].
  destruct (uint_of 1 _) as [flags|]; [|discriminate].
  destruct (read_entries _ _) as [es|] eqn:Ees; [|discriminate].
  injection Hrun as <- <-. simpl. repeat split.
  exists es. split; [reflexivity|].
  apply read_entries_length in Ees. apply uint_of_nonneg in Ecount. lia.
Qed.

(** A file of at least four bytes that does not start with the magic
    constant makes [strncmp] return a non-zero value. *)
Lemma strncmp_magic_differs (b0 b1 b2 b3 : byte) :
  [b0; b1; b2; b3] <> MAGIC ->
  exists cmp,
    strncmp (filled 4 [b0; b1; b2; b3]) (map Some (MAGIC ++ [Byte.x00])) 4
    = Done cmp
    /\ cmp <> 0.
Proof.
  intros Hne.
  assert (Hsub : forall a b : byte, a <> b -> byte_val a - byte_val b <> 0).
  { intros a b N E. apply N, byte_val_inj. lia. }
  cbn [filled map app take replicate strncmp MAGIC].
  destruct (decide (b0 = byte_of_Z 65)) as [->|N0]; [|eauto].
  destruct (decide (byte_of_Z 65 = Byte.x00)) as [E|_]; [discriminate E|].
  destruct (decide (b1 = byte_of_Z 65)) as [->|N1]; [|eauto].
  destruct (decide (byte_of_Z 65 = Byte.x00)) as [E|_]; [discriminate E|].
  destruct (decide (b2 = byte_of_Z 70)) as [->|N2]; [|eauto].
  destruct (decide (byte_of_Z 70 = Byte.x00)) as [E|_]; [discriminate E|].
  destruct (decide (b3 = Byte.x00)) as [->|N3]; [|eauto].
  exfalso. apply Hne. reflexivity.
Qed.

(* ===================================================================== *)
(** * The extractor                                                       *)
(* ===================================================================== *)

(** No entry from index [i] on compares equal: the loop runs to its end
    and only reports on [stderr]. *)
Lemma extract_from_not_found (archive : HSGAAArchive) (es : list HSGAAEntry)
    (file_name output_path : string) (n i : nat) (w : World) :
  entries archive = Some es ->
  (i + n = length es)%nat ->
  (forall e, e ∈ drop i es -> strcmp (name e) file_name <> 0) ->
  extract_from archive file_name output_path n (Z.of_nat i) w
  = Done (tt, to_stderr ("File not found in archive: " +:+ c_str file_name) w).
Proof.
  intros Ees. revert i. induction n as [|n IH]; intros i Hlen Hno.
  - reflexivity.
  - destruct (lookup_lt_is_Some_2 es i) as [e Ee]; [lia|].
    cbn [extract_from]. unfold bind, lift.
    rewrite Ees, (array_get_lookup _ _ _ Ee).
    rewrite (drop_S _ _ _ Ee) in Hno.
    destruct (decide (strcmp (name e) file_name = 0)) as [E0|_].
    + exfalso. apply (Hno e); [left|exact E0].
    + replace (Z.of_nat i + 1) with (Z.of_nat (S i)) by lia.
      apply IH; [lia|]. intros e' Hin. apply Hno. right. exact Hin.
Qed.

(** Some entry from index [i] on compares equal and the chunk array is
    null: the loop stops at the first such entry, opens the output and
    then indexes the null array there. *)
Lemma extract_from_null_chunks (archive : HSGAAArchive)
    (es : list HSGAAEntry) (file_name output_path : string) (n i : nat)
    (w : World) :
  entries archive = Some es ->
  image_chunks archive = None ->
  (i + n = length es)%nat ->
  (exists e, e ∈ drop i es /\ strcmp (name e) file_name = 0) ->
  fs w !! c_str output_path <> Some Unopenable ->
  exists j e,
    (i <= j)%nat
    /\ es !! j = Some e
    /\ strcmp (name e) file_name = 0
    /\ extract_from archive file_name output_path n (Z.of_nat i) w
       = Fault (NullPointer (Z.of_nat j)).
Proof.
  intros Ees Ech. revert i. induction n as [|n IH]; intros i Hlen Hex Hopen.
  - destruct Hex as (e & Hin & _). rewrite drop_ge in Hin by lia.
    inversion Hin.
  - destruct (lookup_lt_is_Some_2 es i) as [e Ee]; [lia|].
    cbn [extract_from]. unfold bind, lift.
    rewrite Ees, (array_get_lookup _ _ _ Ee).
    destruct (decide (strcmp (name e) file_name = 0)) as [E0|N0].
    + exists i, e. repeat split; [lia|exact Ee|exact E0|].
      unfold fopen_wb.
      destruct (fs w !! c_str output_path) as [[data|]|];
        try contradiction; simpl; rewrite Ech; reflexivity.
    + replace (Z.of_nat i + 1) with (Z.of_nat (S i)) by lia.
      destruct (IH (S i)) as (j & e' & Hj & Ej & E0 & Hrun);
        [lia| |exact Hopen|].
      * destruct Hex as (e' & Hin & E0). rewrite (drop_S _ _ _ Ee) in Hin.
        apply elem_of_cons in Hin as [->|Hin]; [contradiction|].
        exists e'. split; assumption.
      * exists j, e'. repeat split; [lia|exact Ej|exact E0|exact Hrun].
Qed.

Lemma stored_compress_no_room (source : list byte) :
  (stored_compress 0 source).1 <> Z_OK.
Proof.
  unfold stored_compress.
  destruct (65536 <=? Z.of_nat (length source)); [discriminate|].
  rewrite !length_app. simpl length.
  destruct (Z.ltb_spec 0 (Z.of_nat (3 + (2 + (2 + (length source
              + length (rev (le_bytes 4 (adler32 source))))))))) as [_|?];
    [discriminate|lia].
Qed.

Lemma sample_built_is_built : built (H := sample_platform) sample_built.
Proof.
  eapply (built_add _ _ "b.bin" (set_heap (<[4096 := Block (bytes_of [1; 2; 3]) false]>) sample_world)).
  - eapply (built_add _ _ "a.bin" sample_world).
    + apply (built_create 0).
    + vm_compute. reflexivity.
  - vm_compute. reflexivity.
Qed.

Lemma scenario_read :
  hsgaa_read_archive "scenario.aaf" scenario_world
  = Done (Some scenario_loaded, scenario_world).
Proof. vm_compute. reflexivity. Qed.

(** In an archive under construction there is one chunk per entry, the
    first offset is 0, and every later offset is the address held by the
    previous cell of [image_chunks]. *)
Lemma built_offsets `{Platform} (archive : HSGAAArchive) :
  built archive ->
  length (elems (entries archive)) = length (elems (image_chunks archive))
  /\ (forall e, head (elems (entries archive)) = Some e -> offset e = 0)
  /\ (forall i e, elems (entries archive) !! S i = Some e ->
        elems (image_chunks archive) !! i = Some (offset e)).
Proof.
  induction 1
    as [c|archive archive' file_path w w' Hb (IHl & IHh & IHi) Hrun].
  - simpl. repeat split; intros; discriminate.
  - destruct (built_invariant archive Hb) as (Hc & _).
    destruct (add_file_result _ _ _ _ _ Hc Hrun) as [->|(chunk & sz & ->)];
      [repeat split; assumption|].
    destruct Hc as (He & Hcc & Hs). simpl elems. split; [|split].
    + rewrite !length_app. simpl. lia.
    + intros e. rewrite head_snoc.
      destruct (elems (entries archive)) as [|e0 es] eqn:Ees; simpl.
      * intros [= <-]. simpl.
        destruct (decide (image_chunk_count archive <> 0)) as [N|_];
          [|reflexivity].
        simpl in IHl. lia.
      * intros [= <-]. apply IHh. reflexivity.
    + intros i e Hl. apply lookup_snoc_Some in Hl as [[Hlt Hl]|[Heq <-]].
      * rewrite lookup_app_l by lia. apply IHi. exact Hl.
      * simpl. destruct (decide (image_chunk_count archive <> 0)) as [_|N];
          [|lia].
        rewrite lookup_app_l by lia. rewrite last_lookup.
        replace (Init.Nat.pred (length (elems (image_chunks archive))))
          with i by lia.
        destruct (lookup_lt_is_Some_2 (elems (image_chunks archive)) i)
          as [p Ep]; [lia|].
        rewrite Ep. reflexivity.
Qed.

(** With an output path that cannot be opened, the extraction loop
    leaves the file system as it was. *)
Lemma extract_from_unopenable (archive : HSGAAArchive)
    (file_name output_path : string) (n : nat) (i : Z) (w w' : World) :
  fs w !! c_str output_path = Some Unopenable ->
  extract_from archive file_name output_path n i w = Done (tt, w') ->
  fs w' = fs w.
Proof.
  intros Hu. revert i. induction n as [|n IH]; intros i Hrun.
  - injection Hrun as <-. reflexivity.
  - cbn [extract_from] in Hrun. unfold bind, lift in Hrun.
    destruct (array_get (entries archive) i) as [e|]; [|discriminate].
    destruct (decide (strcmp (name e) file_name = 0)).
    + unfold fopen_wb in Hrun. rewrite Hu in Hrun. simpl in Hrun.
      injection Hrun as <-. reflexivity.
    + eapply IH. exact Hrun.
Qed.

(** A round trip that completes and yields bytes found no entry of that
    name in the archive it read back: what it yields is the old content
    of the output path, never extracted data. *)
Lemma roundtrip_extracts_nothing `{Platform} (c : Z) (paths : list string)
    (archive_path file_name output_path : string) (w w' : World)
    (bytes : list byte) :
  roundtrip c paths archive_path file_name output_path w
  = Done (Some bytes, w') ->
  exists archive wa wb loaded,
    add_files (hsgaa_create_archive c) paths w = Done (archive, wa)
    /\ hsgaa_write_archive archive archive_path wa = Done (tt, wb)
    /\ hsgaa_read_archive archive_path wb = Done (Some loaded, wb)
    /\ (forall e, e ∈ elems (entries loaded) ->
                  strcmp (name e) file_name <> 0)
    /\ fs wb !! c_str output_path = Some (RegularFile bytes).
Proof.
  unfold roundtrip, bind. intros Hrun.
  destruct (add_files _ paths w) as [[a wa]|] eqn:Ea; [|discriminate].
  destruct (hsgaa_write_archive a archive_path wa) as [[[] wb]|] eqn:Ew;
    [|discriminate].
  destruct (hsgaa_read_archive archive_path wb) as [[[loaded|] wc]|] eqn:Er;
    try discriminate.
  destruct (read_archive_shape _ _ _ _ Er)
    as (-> & _ & Hch & _ & es & Ees & Hlen).
  exists a, wa, wb, loaded.
  split; [reflexivity|]. split; [exact Ew|]. split; [exact Er|].
  destruct (hsgaa_extract_file loaded file_name output_path wb)
    as [[[] wd]|] eqn:Ex; [|discriminate].
  unfold hsgaa_extract_file in Ex. rewrite Hlen, Nat2Z.id in Ex.
  assert (Hno : forall e, e ∈ elems (entries loaded) ->
                          strcmp (name e) file_name <> 0).
  { intros e Hin E0.
    destruct (fs wb !! c_str output_path) as [[d|]|] eqn:Ef.
    - destruct (extract_from_null_chunks loaded es file_name output_path
                  (length es) 0 wb Ees Hch eq_refl)
        as (j & e' & _ & _ & _ & Hf).
      + exists e. rewrite Ees in Hin. split; assumption.
      + rewrite Ef. discriminate.
      + change (Z.of_nat 0) with 0 in Hf. rewrite Hf in Ex. discriminate.
    - pose proof (extract_from_unopenable _ _ _ _ _ _ _ Ef Ex) as Hfs.
      unfold fopen_rb in Hrun. rewrite Hfs, Ef in Hrun. discriminate.
    - destruct (extract_from_null_chunks loaded es file_name output_path
                  (length es) 0 wb Ees Hch eq_refl)
        as (j & e' & _ & _ & _ & Hf).
      + exists e. rewrite Ees in Hin. split; assumption.
      + rewrite Ef. discriminate.
      + change (Z.of_nat 0) with 0 in Hf. rewrite Hf in Ex. discriminate. }
  split; [exact Hno|].
  rewrite Ees in Hno. simpl in Hno. change 0 with (Z.of_nat 0) in Ex.
  rewrite (extract_from_not_found loaded es file_name output_path
             (length es) 0 wb Ees eq_refl Hno) in Ex.
  injection Ex as <-.
  unfold fopen_rb in Hrun. simpl in Hrun.
  destruct (fs wb !! c_str output_path) as [[d|]|]; try discriminate.
  injection Hrun as -> _. reflexivity.
Qed.

(** Entries are appended in the order of the calls: after [add_files],
    the new names are, in order, those of the paths that were added. *)
Lemma add_files_in_order `{Platform} (paths : list string)
    (archive archive' : HSGAAArchive) (w w' : World) :
  counts_ok archive ->
  add_files archive paths w = Done (archive', w') ->
  exists added,
    elems (entries archive') = elems (entries archive) ++ added
    /\ map name added `sublist_of` map c_str paths.
Proof.
  revert archive w. induction paths as [|path rest IH]; intros archive w Hc.
  - intros [= <- _]. exists []. rewrite app_nil_r. split; constructor.
  - cbn [add_files]. unfold bind.
    destruct (hsgaa_add_file archive path w) as [[a1 w1]|] eqn:E1;
      [|discriminate].
    intros Hrest.
    destruct (add_file_result _ _ _ _ _ Hc E1) as [->|(chunk & sz & ->)].
    + destruct (IH _ _ Hc Hrest) as (added & Eadd & Hsub).
      exists added. split; [exact Eadd|]. simpl. constructor. exact Hsub.
    + destruct (IH _ _ (add_file_counts_ok _ _ _ _ _ Hc E1) Hrest)
        as (added & Eadd & Hsub).
      simpl in Eadd. rewrite <- app_assoc in Eadd.
      eexists. split; [exact Eadd|]. simpl. constructor. exact Hsub.
Qed.

(** The CRC-32 check value: the model of [crc32] is the standard one. *)
Example crc32_check_value :
  CRC32 (string_bytes "123456789") = 0xCBF43926.
Proof. vm_compute. reflexivity. Qed.

Example hash32_sample : hash32 "a.bin" = 0x77FBF212.
Proof. vm_compute. reflexivity. Qed.

(** When the header is written at all, it is 14 bytes: the magic, the
    byte found at address [VERSION], the flag byte and the [toc_offset]
    of [toc_offset_of]. *)
Lemma write_header_bytes (archive : HSGAAArchive) (w w' : World)
    (header : list byte) :
  write_header archive w = Done (header, w') ->
  exists blk b,
    heap w !! VERSION = Some blk
    /\ blk_live blk = true
    /\ head (blk_bytes blk) = Some b
    /\ header
       = MAGIC ++ [b]
           ++ [byte_of_Z (if decide (compress archive <> 0) then 1 else 0)]
           ++ le_bytes 8 (toc_offset_of archive)
    /\ length header = 14%nat.
Proof.
  unfold write_header, bind, load, ret. simpl (VERSION =? 0).
  change (1 =? 0) with false. cbv iota.
  destruct (heap w !! VERSION) as [blk|]; [|discriminate].
  destruct (blk_live blk) eqn:Elive; [|discriminate].
  destruct (blk_bytes blk) as [|b rest] eqn:Ebytes; [discriminate|].
  destruct (1 <=? Z.of_nat (length (b :: rest))); [|discriminate].
  simpl. intros [= <- <-]. exists blk, b.
  rewrite Ebytes. repeat split; assumption.
Qed.

(* ===================================================================== *)
(** * The claims of the specification                                     *)
(* ===================================================================== *)

(** C1 (round trip without compression), on the input
    [a.bin] = 01 02 03: build, write to [out.aaf], read it back, extract
    [a.bin].  The claim promises the original three bytes; the run stops
    inside [hsgaa_write_archive], at [fwrite(VERSION, ...)], which reads
    through the address 1. *)
Theorem roundtrip_sample_faults :
  roundtrip (H := sample_platform) 0 ["a.bin"%string]
    "out.aaf" "a.bin" "a.out" sample_world
  = Fault (BadAddress 1).
Proof. vm_compute. reflexivity. Qed.

(** C2 (offsets contiguous, the first one 14), on the input [a.bin]
    (3 bytes) then [b.bin] (5 bytes): [hsgaa_add_file] gives the first
    entry the offset 0 and the second one the address of the first chunk
    buffer (4096 on the sample platform), where the claim asks for 14 and
    for 14 + 3. *)
Theorem sample_offsets_are_addresses :
  exists w,
    add_files (H := sample_platform) (hsgaa_create_archive 0)
      ["a.bin"%string; "b.bin"%string] sample_world
    = Done (sample_built, w)
    /\ map offset (elems (entries sample_built)) = [0; 4096]
    /\ map size (elems (entries sample_built)) = [3; 5]
    /\ image_chunks sample_built = Some [4096; 4112].
Proof. eexists. split; [vm_compute; reflexivity|]. repeat split. Qed.

(** C3 (header, chunks, table of contents; toc_offset = 14 + chunk
    bytes), on the archive built from [a.bin] and [b.bin]: the header's
    [toc_offset] is computed as 14 + 2 * sizeof(HSGAAEntry) = 62, while
    the chunks hold 8 bytes and the table of contents would start at
    22. *)
Theorem sample_toc_offset_counts_structs :
  toc_offset_of sample_built = 62
  /\ 14 + chunk_bytes_total sample_built = 22.
Proof. split; reflexivity. Qed.

(** C4 (extraction seeks and reads the backing stream, then
    decompresses), on the archive file of the specification's concrete
    scenario: after [hsgaa_read_archive], extracting the existing name
    [a.bin] reads no stream; it indexes the null [image_chunks]. *)
Theorem scenario_extract_faults :
  (loaded <- hsgaa_read_archive "scenario.aaf" ;
   match loaded with
   | Some archive => hsgaa_extract_file archive "a.bin" "a.out"
   | None => ret tt
   end) scenario_world
  = Fault (NullPointer 0).
Proof. vm_compute. reflexivity. Qed.

(** C5: with compression enabled, [hsgaa_add_file] never adds a file.
    Whatever the archive, the path and the world, the call completes and
    hands back the archive as it was (same entries, same chunks), having
    reported a failure on [stderr]: the file could not be opened, or
    [compress] was given 0 bytes of room ([compressed_size] is 0 when it
    is passed) and, as zlib's [compress] does in that case, did not
    return [Z_OK]. *)
Theorem add_file_compress_never_adds `{Platform} (archive : HSGAAArchive)
    (file_path : string) (w : World) :
  compress archive <> 0 ->
  (forall source, (zlib_compress 0 source).1 <> Z_OK) ->
  (exists w',
     hsgaa_add_file archive file_path w = Done (archive, w')
     /\ fs w' = fs w
     /\ stdout w' = stdout w
     /\ (stderr w' = stderr w ++ ["Failed to open file"%string]
         \/ stderr w' = stderr w ++ ["Compression failed"%string]))
  /\ (built archive ->
      entries archive = None /\ entry_count archive = 0
      /\ image_chunks archive = None /\ image_chunk_sizes archive = None
      /\ image_chunk_count archive = 0).
Proof.
  intros Hc Hz. split; [apply add_file_compress; assumption|].
  intros Hb. rewrite (compressing_archive_stays_empty archive Hz Hb Hc).
  repeat split.
Qed.

Lemma add_file_compress_never_adds_witness :
  (exists w',
     hsgaa_add_file (H := sample_platform) (hsgaa_create_archive 1) "a.bin"
       sample_world
     = Done (hsgaa_create_archive 1, w')
     /\ fs w' = fs sample_world
     /\ stdout w' = stdout sample_world
     /\ (stderr w' = stderr sample_world ++ ["Failed to open file"%string]
         \/ stderr w'
            = stderr sample_world ++ ["Compression failed"%string]))
  /\ (built (H := sample_platform) (hsgaa_create_archive 1) ->
      entries (hsgaa_create_archive 1) = None
      /\ entry_count (hsgaa_create_archive 1) = 0
      /\ image_chunks (hsgaa_create_archive 1) = None
      /\ image_chunk_sizes (hsgaa_create_archive 1) = None
      /\ image_chunk_count (hsgaa_create_archive 1) = 0).
Proof.
  apply (add_file_compress_never_adds (H := sample_platform)
           (hsgaa_create_archive 1) "a.bin" sample_world).
  - simpl. lia.
  - exact stored_compress_no_room.
Defined.

(** C6: an archive returned by [hsgaa_read_archive] has
    [image_chunk_count = 0] and null chunk arrays, whatever its
    [entry_count]; so extracting a name some entry carries (the output
    file being openable) reaches [archive->image_chunks[i]] with [i] the
    index of the first such entry, [i >= image_chunk_count], in a null
    array. *)
Theorem read_archive_has_no_chunks (archive_path : string) (w w' : World)
    (archive : HSGAAArchive) :
  hsgaa_read_archive archive_path w = Done (Some archive, w') ->
  image_chunk_count archive = 0
  /\ image_chunks archive = None
  /\ image_chunk_sizes archive = None
  /\ entry_count archive = Z.of_nat (length (elems (entries archive)))
  /\ forall (file_name output_path : string) (w1 : World),
       (exists e, e ∈ elems (entries archive)
                  /\ strcmp (name e) file_name = 0) ->
       fs w1 !! c_str output_path <> Some Unopenable ->
       exists i e,
         elems (entries archive) !! i = Some e
         /\ strcmp (name e) file_name = 0
         /\ image_chunk_count archive <= Z.of_nat i
         /\ hsgaa_extract_file archive file_name output_path w1
            = Fault (NullPointer (Z.of_nat i)).
Proof.
  intros Hread.
  destruct (read_archive_shape _ _ _ _ Hread)
    as (_ & Hcount & Hchunks & Hsizes & es & Ees & Hlen).
  rewrite Ees. simpl elems. repeat split; try assumption.
  intros file_name output_path w1 Hex Hopen.
  destruct (extract_from_null_chunks archive es file_name output_path
              (length es) 0 w1 Ees Hchunks eq_refl Hex Hopen)
    as (j & e & _ & Ej & E0 & Hrun).
  exists j, e. repeat split; [exact Ej|exact E0|lia|].
  unfold hsgaa_extract_file. rewrite Hlen, Nat2Z.id. exact Hrun.
Qed.

Lemma read_archive_has_no_chunks_witness :
  image_chunk_count scenario_loaded = 0
  /\ image_chunks scenario_loaded = None
  /\ image_chunk_sizes scenario_loaded = None
  /\ entry_count scenario_loaded
     = Z.of_nat (length (elems (entries scenario_loaded)))
  /\ forall (file_name output_path : string) (w1 : World),
       (exists e, e ∈ elems (entries scenario_loaded)
                  /\ strcmp (name e) file_name = 0) ->
       fs w1 !! c_str output_path <> Some Unopenable ->
       exists i e,
         elems (entries scenario_loaded) !! i = Some e
         /\ strcmp (name e) file_name = 0
         /\ image_chunk_count scenario_loaded <= Z.of_nat i
         /\ hsgaa_extract_file scenario_loaded file_name output_path w1
            = Fault (NullPointer (Z.of_nat i)).
Proof.
  apply (read_archive_has_no_chunks "scenario.aaf" scenario_world
           scenario_world scenario_loaded).
  vm_compute. reflexivity.
Defined.

(** C7 (the 14-byte header: magic, version 1, flags, toc_offset), on the
    empty archive created without compression, in a process with no
    object at address 1: the version byte is not written from the
    constant; [fwrite(VERSION, sizeof(uint8_t), 1, f)] takes [VERSION] as
    the source address, and the write stops there, after the magic. *)
Theorem empty_archive_write_faults :
  hsgaa_write_archive (hsgaa_create_archive 0) "out.aaf" sample_world
  = Fault (BadAddress 1).
Proof. vm_compute. reflexivity. Qed.

(** C9: a file of at least four bytes whose first four bytes are not
    the magic constant is rejected: [hsgaa_read_archive] reports
    "Invalid magic in archive" and returns the null pointer, so no
    archive and no entry is produced; nothing else changes. *)
Theorem read_archive_rejects_bad_magic (archive_path : string) (w : World)
    (contents : list byte) :
  fs w !! c_str archive_path = Some (RegularFile contents) ->
  (4 <= length contents)%nat ->
  take 4 contents <> MAGIC ->
  hsgaa_read_archive archive_path w
  = Done (None, to_stderr "Invalid magic in archive" w).
Proof.
  intros Hfile Hlen Hmagic.
  destruct contents as [|b0 [|b1 [|b2 [|b3 rest]]]]; simpl in Hlen; try lia.
  simpl take in Hmagic.
  destruct (strncmp_magic_differs b0 b1 b2 b3 Hmagic) as (cmp & Hcmp & Hne).
  assert (Hf : fread 4 (Stream (b0 :: b1 :: b2 :: b3 :: rest) 0)
               = ([b0; b1; b2; b3], Stream (b0 :: b1 :: b2 :: b3 :: rest) 4))
    by reflexivity.
  unfold hsgaa_read_archive, bind, fopen_rb. rewrite Hfile, Hf.
  unfold lift. rewrite Hcmp.
  destruct (decide (cmp <> 0)) as [_|N]; [reflexivity|contradiction].
Qed.

Lemma read_archive_rejects_bad_magic_witness :
  hsgaa_read_archive "b.bin" sample_world
  = Done (None, to_stderr "Invalid magic in archive" sample_world).
Proof.
  apply (read_archive_rejects_bad_magic "b.bin" sample_world
           (bytes_of [4; 5; 6; 7; 8])).
  - vm_compute. reflexivity.
  - simpl. lia.
  - vm_compute. discriminate.
Defined.

(** C10: on a loaded archive, a name that compares unequal ([strcmp],
    i.e. byte-wise as C strings) to every entry makes
    [hsgaa_extract_file] report "File not found in archive: <name>" and
    return.  No file is opened and no chunk is read: the heap, the file
    system and [stdout] are as before.  The function has no store through
    [archive]; the archive value, metadata included, stays what it
    was. *)
Theorem extract_missing_entry (archive_path : string) (w0 w1 : World)
    (archive : HSGAAArchive) (file_name output_path : string) (w : World) :
  hsgaa_read_archive archive_path w0 = Done (Some archive, w1) ->
  (forall e, e ∈ elems (entries archive) -> strcmp (name e) file_name <> 0) ->
  exists w',
    hsgaa_extract_file archive file_name output_path w = Done (tt, w')
    /\ stderr w'
       = stderr w ++ ["File not found in archive: " +:+ c_str file_name]
    /\ heap w' = heap w
    /\ fs w' = fs w
    /\ stdout w' = stdout w.
Proof.
  intros Hread Hno.
  destruct (read_archive_shape _ _ _ _ Hread)
    as (_ & _ & _ & _ & es & Ees & Hlen).
  rewrite Ees in Hno. simpl in Hno.
  eexists. split.
  - unfold hsgaa_extract_file. rewrite Hlen, Nat2Z.id.
    apply (extract_from_not_found archive es file_name output_path
             (length es) 0 w Ees eq_refl).
    exact Hno.
  - repeat split.
Qed.

Lemma extract_missing_entry_witness :
  exists w',
    hsgaa_extract_file scenario_loaded "b.bin" "b.out" scenario_world
    = Done (tt, w')
    /\ stderr w'
       = stderr scenario_world
           ++ ["File not found in archive: " +:+ c_str "b.bin"]
    /\ heap w' = heap scenario_world
    /\ fs w' = fs scenario_world
    /\ stdout w' = stdout scenario_world.
Proof.
  apply (extract_missing_entry "scenario.aaf" scenario_world scenario_world
           scenario_loaded "b.bin" "b.out" scenario_world).
  - vm_compute. reflexivity.
  - intros e Hin. simpl in Hin. apply elem_of_cons in Hin as [->|Hin].
    + vm_compute. discriminate.
    + inversion Hin.
Defined.

(* ===================================================================== *)
(** * Further properties of the code                                      *)
(* ===================================================================== *)

(** ** [hsgaa_add_file] without compression *)

Section AddPlain.
Context `{Platform}.

(** The archive and the world a successful uncompressed add leaves. *)
Lemma add_file_plain_run (archive : HSGAAArchive) (file_path : string)
    (w : World) (contents : list byte) :
  compress archive = 0 ->
  counts_ok archive ->
  fs w !! c_str file_path = Some (RegularFile contents) ->
  hsgaa_add_file archive file_path w
  = Done
      (mkArchive
         (Some (elems (entries archive)
                  ++ [mkEntry (c_str file_path)
                        (if decide (image_chunk_count archive <> 0)
                         then default 0 (last (elems (image_chunks archive)))
                         else 0)
                        (Z.of_nat (length contents))]))
         (entry_count archive + 1)
         (Some (elems (image_chunks archive)
                  ++ [malloc_addr (heap w) (Z.of_nat (length contents))]))
         (Some (elems (image_chunk_sizes archive)
                  ++ [Z.of_nat (length contents)]))
         (image_chunk_count archive + 1)
         0,
       set_heap
         (<[malloc_addr (heap w) (Z.of_nat (length contents))
            := Block contents false]>) w).
Proof.
  intros Hcomp (He & Hc & Hs) Hfile.
  unfold hsgaa_add_file, bind, fopen_rb. rewrite Hfile.
  unfold malloc, store. cbn -[realloc array_get array_set].
  rewrite lookup_insert_eq. cbn -[realloc array_get array_set].
  destruct (decide (compress archive <> 0)) as [N|_]; [contradiction|].
  unfold ret at 1. cbv beta iota.
  rewrite (realloc_grow (entries archive)) by exact He.
  rewrite !(realloc_grow (image_chunks archive)) by exact Hc.
  rewrite (realloc_grow (image_chunk_sizes archive)) by exact Hs.
  set (p := malloc_addr (heap w) (Z.of_nat (length contents))).
  assert (Hheap : forall w0,
    heap w0 = <[p := Block contents true]> (<[p := Block [] true]> (heap w)) ->
    fs w0 = fs w -> stderr w0 = stderr w -> stdout w0 = stdout w ->
    set_heap (alter (fun b => Block (blk_bytes b) false) p) w0
    = set_heap (<[p := Block contents false]>) w).
  { intros [h0 f0 e0 o0]. simpl. intros -> -> -> ->. unfold set_heap. simpl.
    rewrite alter_insert_eq, insert_insert_eq. reflexivity. }
  destruct (decide (image_chunk_count archive <> 0)) as [Hn|Hn].
  - destruct (elems (image_chunks archive)) as [|c cs _] eqn:Ecs
      using rev_ind; [simpl in Hc; lia|].
    rewrite length_app in Hc. simpl length in Hc.
    replace (image_chunk_count archive - 1) with (Z.of_nat (length cs)) by lia.
    unfold lift.
    rewrite (array_get_lookup _ _ c).
    2:{ rewrite lookup_app_l by (rewrite length_app; simpl; lia).
        rewrite lookup_app_r by lia. rewrite Nat.sub_diag. reflexivity. }
    rewrite (array_set_last (elems (entries archive))) by exact He.
    rewrite (array_set_last (cs ++ [c]))
      by (rewrite length_app; simpl; lia).
    rewrite (array_set_last (elems (image_chunk_sizes archive))) by exact Hs.
    unfold free, ret. rewrite last_snoc. simpl default.
    rewrite Hcomp. f_equal. f_equal. apply Hheap; reflexivity.
  - unfold lift, ret.
    rewrite (array_set_last (elems (entries archive))) by exact He.
    rewrite (array_set_last (elems (image_chunks archive))) by exact Hc.
    rewrite (array_set_last (elems (image_chunk_sizes archive))) by exact Hs.
    unfold free. rewrite Hcomp. f_equal. f_equal. apply Hheap; reflexivity.
Qed.

End AddPlain.

Section BuildPlain.
Context `{Platform}.

Lemma add_file_missing_run (archive : HSGAAArchive) (file_path : string)
    (w : World) :
  (forall contents, fs w !! c_str file_path <> Some (RegularFile contents)) ->
  hsgaa_add_file archive file_path w
  = Done (archive, to_stderr "Failed to open file" w).
Proof.
  intros Hno. unfold hsgaa_add_file, bind, fopen_rb.
  destruct (fs w !! c_str file_path) as [[contents|]|] eqn:Ef;
    [exfalso; exact (Hno contents eq_refl)|reflexivity|reflexivity].
Qed.

(** One call on a state of [plain_state]: it completes, keeps the file
    system, and leads to a state of [plain_state]; the entries grow by
    at most the one of this file. *)
Lemma add_file_plain_step (archive : HSGAAArchive) (file_path : string)
    (w : World) :
  plain_state w archive ->
  exists archive' w',
    hsgaa_add_file archive file_path w = Done (archive', w')
    /\ plain_state w' archive'
    /\ (fs w' = fs w /\ stdout w' = stdout w)
    /\ match fs w !! c_str file_path with
       | Some (RegularFile contents) =>
           elems (entries archive')
           = elems (entries archive)
               ++ [mkEntry (c_str file_path)
                     (if decide (image_chunk_count archive <> 0)
                      then default 0 (last (elems (image_chunks archive)))
                      else 0)
                     (Z.of_nat (length contents))]
       | _ => archive' = archive
       end.
Proof.
  intros (Hcomp & Hc & Hec & Hsz & Hd).
  destruct (fs w !! c_str file_path) as [[contents|]|] eqn:Ef.
  - eexists _, _. split; [apply add_file_plain_run; eassumption|].
    destruct Hc as (He & Hcc & Hs).
    split; [|split; [split; reflexivity|reflexivity]].
    repeat split; simpl.
    + rewrite length_app. simpl. lia.
    + rewrite length_app. simpl. lia.
    + rewrite length_app. simpl. lia.
    + lia.
    + rewrite map_app, Hsz. reflexivity.
    + unfold dangling in *. simpl. apply Forall_app. split.
      * eapply Forall_impl; [exact Hd|]. intros q (b & Eb & Hb). simpl.
        destruct (decide (malloc_addr (heap w) (Z.of_nat (length contents)) = q))
          as [->|Hne].
        -- eexists. rewrite lookup_insert_eq. split; reflexivity.
        -- exists b. rewrite lookup_insert_ne by exact Hne. split; assumption.
      * constructor; [|constructor]. simpl.
        eexists. rewrite lookup_insert_eq. split; reflexivity.
  - exists archive, (to_stderr "Failed to open file" w).
    split; [apply add_file_missing_run; intros c; rewrite Ef; discriminate|].
    split; [|split; [split; reflexivity|reflexivity]].
    split; [exact Hcomp|]. split; [exact Hc|]. split; [exact Hec|].
    split; [exact Hsz|exact Hd].
  - exists archive, (to_stderr "Failed to open file" w).
    split; [apply add_file_missing_run; intros c; rewrite Ef; discriminate|].
    split; [|split; [split; reflexivity|reflexivity]].
    split; [exact Hcomp|]. split; [exact Hc|]. split; [exact Hec|].
    split; [exact Hsz|exact Hd].
Qed.

Lemma add_files_plain_run (paths : list string) (archive : HSGAAArchive)
    (w : World) :
  plain_state w archive ->
  exists archive' w',
    add_files archive paths w = Done (archive', w')
    /\ plain_state w' archive'
    /\ fs w' = fs w
    /\ stdout w' = stdout w.
Proof.
  revert archive w. induction paths as [|path rest IH]; intros archive w Hp.
  - exists archive, w. split; [reflexivity|]. split; [exact Hp|].
    split; reflexivity.
  - destruct (add_file_plain_step archive path w Hp)
      as (a1 & w1 & E1 & Hp1 & (Hfs1 & Hout1) & _).
    destruct (IH a1 w1 Hp1) as (a2 & w2 & E2 & Hp2 & Hfs2 & Hout2).
    exists a2, w2. cbn [add_files]. unfold bind. rewrite E1.
    split; [exact E2|]. split; [exact Hp2|]. split; congruence.
Qed.

Lemma plain_state_create (w : World) : plain_state w (hsgaa_create_archive 0).
Proof. repeat split. constructor. Qed.

(** With every path an openable file, each call appends its entry. *)
Lemma add_files_all_present (paths : list string) (archive : HSGAAArchive)
    (w : World) :
  plain_state w archive ->
  Forall (fun path => exists contents,
            fs w !! c_str path = Some (RegularFile contents)) paths ->
  exists archive' w' added,
    add_files archive paths w = Done (archive', w')
    /\ elems (entries archive') = elems (entries archive) ++ added
    /\ Forall2 (fun e path =>
                  name e = c_str path
                  /\ exists contents,
                       fs w !! c_str path = Some (RegularFile contents)
                       /\ size e = Z.of_nat (length contents))
         added paths.
Proof.
  revert archive w. induction paths as [|path rest IH]; intros archive w Hp Hall.
  - exists archive, w, []. rewrite app_nil_r. repeat split. constructor.
  - inversion Hall as [|? ? (contents & Ef) Hrest]; subst.
    destruct (add_file_plain_step archive path w Hp)
      as (a1 & w1 & E1 & Hp1 & (Hfs1 & _) & Hent).
    rewrite Ef in Hent.
    destruct (IH a1 w1 Hp1) as (a2 & w2 & added & E2 & Eadd & Hf2).
    { rewrite Hfs1. exact Hrest. }
    eexists a2, w2, (_ :: added). cbn [add_files]. unfold bind. rewrite E1.
    split; [exact E2|]. split.
    + rewrite Eadd, Hent, <- app_assoc. reflexivity.
    + constructor.
      * simpl. split; [reflexivity|]. exists contents. split; [exact Ef|reflexivity].
      * rewrite Hfs1 in Hf2. exact Hf2.
Qed.

End BuildPlain.

(** ** Using the chunk buffers after the build *)

(** The chunk loop of the writer stops at the first chunk of non-zero
    size when all chunk pointers dangle. *)
Lemma write_chunks_dangling (archive : HSGAAArchive) (n i : nat) (w : World) :
  counts_ok archive ->
  dangling w archive ->
  (i + n = length (elems (image_chunks archive)))%nat ->
  (exists s, s ∈ drop i (elems (image_chunk_sizes archive)) /\ s <> 0) ->
  exists p, p ∈ elems (image_chunks archive)
            /\ write_chunks archive n (Z.of_nat i) w = Fault (UseAfterFree p).
Proof.
  intros (_ & Hc & Hs) Hd. revert i.
  induction n as [|n IH]; intros i Hlen (s & Hin & Hne).
  - rewrite drop_ge in Hin by lia. inversion Hin.
  - destruct (image_chunks archive) as [cs|] eqn:Ecs; [|simpl in Hlen; lia].
    destruct (image_chunk_sizes archive) as [ss|] eqn:Ess;
      [|simpl in Hs, Hc, Hlen; lia].
    simpl in Hlen, Hs, Hc, Hin.
    destruct (lookup_lt_is_Some_2 cs i) as [p Ep]; [lia|].
    destruct (lookup_lt_is_Some_2 ss i) as [s0 Es0]; [lia|].
    cbn [write_chunks]. unfold bind, lift.
    rewrite Ecs, Ess, (array_get_lookup _ _ _ Ep), (array_get_lookup _ _ _ Es0).
    unfold dangling in Hd. rewrite Ecs in Hd. simpl in Hd.
    destruct (proj1 (Forall_lookup _ _) Hd i p Ep) as (b & Eb & Hb).
    unfold load. destruct (Z.eqb_spec s0 0) as [->|Hs0].
    + rewrite (drop_S _ _ _ Es0) in Hin.
      apply elem_of_cons in Hin as [->|Hin]; [contradiction|].
      replace (Z.of_nat i + 1) with (Z.of_nat (S i)) by lia.
      destruct (IH (S i)) as (q & Hq & Eq); [simpl; lia| |].
      * exists s. split; assumption.
      * exists q. split; [exact Hq|]. rewrite Eq. reflexivity.
    + exists p. split.
      * simpl. apply list_elem_of_lookup. exists i. exact Ep.
      * rewrite Eb, Hb. reflexivity.
Qed.

(** The extraction loop, with an openable output and dangling chunk
    pointers: at the first entry that compares equal it reads a freed
    buffer, unless that chunk is empty. *)
Lemma extract_from_dangling (archive : HSGAAArchive)
    (file_name output_path : string) (n i : nat) (w : World) :
  counts_ok archive ->
  entry_count archive = image_chunk_count archive ->
  dangling w archive ->
  Forall (fun s => s <> 0) (elems (image_chunk_sizes archive)) ->
  (i + n = length (elems (entries archive)))%nat ->
  (exists e, e ∈ drop i (elems (entries archive))
             /\ strcmp (name e) file_name = 0) ->
  fs w !! c_str output_path <> Some Unopenable ->
  exists p, p ∈ elems (image_chunks archive)
            /\ extract_from archive file_name output_path n (Z.of_nat i) w
               = Fault (UseAfterFree p).
Proof.
  intros (He & Hc & Hs) Hec Hd Hnz. revert i.
  induction n as [|n IH]; intros i Hlen (e & Hin & E0) Hopen.
  - rewrite drop_ge in Hin by lia. inversion Hin.
  - destruct (entries archive) as [es|] eqn:Ees; [|simpl in Hlen; lia].
    destruct (image_chunks archive) as [cs|] eqn:Ecs;
      [|simpl in Hlen, He, Hc; lia].
    destruct (image_chunk_sizes archive) as [ss|] eqn:Ess;
      [|simpl in Hlen, He, Hc, Hs; lia].
    simpl in Hlen, Hs, Hc, He, Hin, Hnz.
    destruct (lookup_lt_is_Some_2 es i) as [e0 Ee0]; [lia|].
    destruct (lookup_lt_is_Some_2 cs i) as [p Ep]; [lia|].
    destruct (lookup_lt_is_Some_2 ss i) as [s0 Es0]; [lia|].
    cbn [extract_from]. unfold bind, lift.
    rewrite Ees, (array_get_lookup _ _ _ Ee0).
    destruct (decide (strcmp (name e0) file_name = 0)) as [_|N0].
    + exists p. split; [simpl; apply list_elem_of_lookup; eauto|].
      unfold dangling in Hd. rewrite Ecs in Hd. simpl in Hd.
      destruct (proj1 (Forall_lookup _ _) Hd i p Ep) as (b & Eb & Hb).
      pose proof (proj1 (Forall_lookup _ _) Hnz i s0 Es0) as Hs0.
      unfold fopen_wb.
      assert (Hrun : forall w1, heap w1 = heap w ->
        (match lift (array_get (image_chunks archive) (Z.of_nat i)) w1 with
         | Done (x, w') =>
             match lift (array_get (image_chunk_sizes archive) (Z.of_nat i)) w'
             with
             | Done (x0, w'0) =>
                 match load x x0 w'0 with
                 | Done (x1, w'1) => fclose_wb output_path x1 w'1
                 | Fault f => Fault f
                 end
             | Fault f => Fault f
             end
         | Fault f => Fault f
         end) = Fault (UseAfterFree p)).
      { intros w1 Hh. unfold lift, load.
        rewrite Ecs, Ess, (array_get_lookup _ _ _ Ep),
          (array_get_lookup _ _ _ Es0).
        destruct (Z.eqb_spec s0 0) as [?|_]; [contradiction|].
        rewrite Hh, Eb, Hb. reflexivity. }
      unfold lift in Hrun.
      destruct (fs w !! c_str output_path) as [[d|]|];
        try contradiction; simpl; apply Hrun; reflexivity.
    + replace (Z.of_nat i + 1) with (Z.of_nat (S i)) by lia.
      apply IH; [simpl; lia| |exact Hopen].
      rewrite (drop_S _ _ _ Ee0) in Hin.
      apply elem_of_cons in Hin as [->|Hin]; [contradiction|].
      exists e. split; assumption.
Qed.

(** ** The extractor on any archive *)

(** Entries that do not compare equal are passed over. *)
Lemma extract_from_skip (archive : HSGAAArchive) (es : list HSGAAEntry)
    (file_name output_path : string) (m n i : nat) (w : World) :
  entries archive = Some es ->
  (i + m + n <= length es)%nat ->
  (forall k e, (i <= k < i + m)%nat -> es !! k = Some e ->
               strcmp (name e) file_name <> 0) ->
  extract_from archive file_name output_path (m + n) (Z.of_nat i) w
  = extract_from archive file_name output_path n (Z.of_nat (i + m)) w.
Proof.
  intros Ees. revert i. induction m as [|m IH]; intros i Hlen Hno.
  - rewrite Nat.add_0_r. reflexivity.
  - destruct (lookup_lt_is_Some_2 es i) as [e Ee]; [lia|].
    cbn [Nat.add extract_from]. unfold bind at 1. unfold lift at 1.
    rewrite Ees, (array_get_lookup _ _ _ Ee).
    destruct (decide (strcmp (name e) file_name = 0)) as [E0|_].
    + exfalso. apply (Hno i e); [lia|exact Ee|exact E0].
    + replace (Z.of_nat i + 1) with (Z.of_nat (S i)) by lia.
      rewrite IH; [f_equal; lia|lia|].
      intros k e' Hk. apply Hno. lia.
Qed.

(** What the loop does at the first entry that compares equal. *)
Lemma extract_at_first_match (archive : HSGAAArchive) (es : list HSGAAEntry)
    (file_name output_path : string) (j : nat) (w : World) :
  entries archive = Some es ->
  entry_count archive = Z.of_nat (length es) ->
  first_match es file_name j ->
  hsgaa_extract_file archive file_name output_path w
  = (out <- fopen_wb output_path ;
     if negb out then perror "Failed to open file for extraction"
     else
       chunk <- lift (array_get (image_chunks archive) (Z.of_nat j)) ;
       chunk_size <- lift (array_get (image_chunk_sizes archive) (Z.of_nat j)) ;
       data <- load chunk chunk_size ;
       fclose_wb output_path data) w.
Proof.
  intros Ees Hlen ((e & Ee & E0) & Hno).
  pose proof (lookup_lt_Some _ _ _ Ee) as Hj.
  unfold hsgaa_extract_file. rewrite Hlen, Nat2Z.id.
  replace (length es) with (j + S (length es - S j))%nat at 1 by lia.
  change 0 with (Z.of_nat 0).
  rewrite (extract_from_skip archive es) by
    (try exact Ees; try lia; intros k e' Hk; apply Hno; lia).
  cbn [Nat.add extract_from]. unfold bind at 1. unfold lift at 1.
  rewrite Ees, (array_get_lookup _ _ _ Ee).
  destruct (decide (strcmp (name e) file_name = 0)) as [_|N];
    [reflexivity|contradiction].
Qed.

(** ** Listing *)

Lemma list_entries_from_run (archive : HSGAAArchive) (es : list HSGAAEntry)
    (n i : nat) (w : World) :
  entries archive = Some es ->
  (i + n = length es)%nat ->
  list_entries_from archive n (Z.of_nat i) w
  = Done (tt, mkWorld (heap w) (fs w) (stderr w)
                (stdout w ++ map (fun e => c_str (name e)) (drop i es))).
Proof.
  intros Ees. revert i w. induction n as [|n IH]; intros i w Hlen.
  - rewrite drop_ge by lia. rewrite app_nil_r. destruct w; reflexivity.
  - destruct (lookup_lt_is_Some_2 es i) as [e Ee]; [lia|].
    cbn [list_entries_from]. unfold bind, lift, printf_line.
    rewrite Ees, (array_get_lookup _ _ _ Ee).
    replace (Z.of_nat i + 1) with (Z.of_nat (S i)) by lia.
    rewrite IH by lia. rewrite (drop_S _ _ _ Ee). simpl.
    rewrite <- app_assoc. reflexivity.
Qed.

(** ** The writer on readable memory *)

Lemma load_readable (w : World) (p n : Z) (data : list byte) :
  readable w p n data -> load p n w = Done (data, w).
Proof.
  unfold load. intros [[-> ->]|(b & Eb & Hb & Hn & ->)]; [reflexivity|].
  destruct (Z.eqb_spec n 0) as [?|_]; [lia|]. rewrite Eb, Hb.
  destruct (Z.leb_spec n (Z.of_nat (length (blk_bytes b)))) as [_|?];
    [reflexivity|lia].
Qed.

Lemma readable_length (w : World) (p n : Z) (data : list byte) :
  readable w p n data -> Z.of_nat (length data) = n.
Proof.
  intros [[-> ->]|(b & _ & _ & Hn & ->)]; [reflexivity|].
  rewrite length_take. lia.
Qed.

Lemma readable_same_heap (w w1 : World) (p n : Z) (data : list byte) :
  heap w1 = heap w -> readable w p n data -> readable w1 p n data.
Proof. unfold readable. intros ->. tauto. Qed.

Lemma write_chunks_readable (archive : HSGAAArchive) (cs ss : list Z)
    (datas : list (list byte)) (n i : nat) (w : World) :
  image_chunks archive = Some cs ->
  image_chunk_sizes archive = Some ss ->
  (i + n = length cs)%nat ->
  Forall3 (readable w) (drop i cs) (drop i ss) datas ->
  write_chunks archive n (Z.of_nat i) w = Done (concat datas, w).
Proof.
  intros Ecs Ess. revert i datas.
  induction n as [|n IH]; intros i datas Hlen Hall.
  - rewrite drop_ge in Hall by lia. inversion Hall; subst. reflexivity.
  - destruct (lookup_lt_is_Some_2 cs i) as [p Ep]; [lia|].
    rewrite (drop_S _ _ _ Ep) in Hall.
    inversion Hall as [|? s0 data ? ss' datas' Hr Hrest Ec Es Ed]; subst.
    assert (Es0 : ss !! i = Some s0).
    { rewrite <- (Nat.add_0_r i), <- lookup_drop, <- Es. reflexivity. }
    assert (Ess' : ss' = drop (S i) ss).
    { rewrite (drop_S _ _ _ Es0) in Es. congruence. }
    subst ss'.
    cbn [write_chunks]. unfold bind, lift.
    rewrite Ecs, Ess, (array_get_lookup _ _ _ Ep), (array_get_lookup _ _ _ Es0).
    rewrite (load_readable _ _ _ _ Hr).
    replace (Z.of_nat i + 1) with (Z.of_nat (S i)) by lia.
    rewrite (IH (S i) datas') by (try lia; exact Hrest).
    reflexivity.
Qed.

Lemma chunk_lengths (w : World) (cs ss : list Z) (datas : list (list byte)) :
  Forall3 (readable w) cs ss datas ->
  Z.of_nat (length (concat datas)) = foldr Z.add 0 ss.
Proof.
  induction 1 as [|p s data cs ss datas Hr _ IH]; [reflexivity|].
  simpl. rewrite length_app, Nat2Z.inj_add, IH, (readable_length _ _ _ _ Hr).
  reflexivity.
Qed.

(** The complete run of the writer when every read it makes is a
    defined one. *)
Lemma write_archive_run (archive : HSGAAArchive) (output_path : string)
    (w : World) (b : byte) (datas : list (list byte)) :
  counts_ok archive ->
  readable w VERSION 1 [b] ->
  Forall3 (readable w) (elems (image_chunks archive))
    (elems (image_chunk_sizes archive)) datas ->
  fs w !! c_str output_path <> Some Unopenable ->
  hsgaa_write_archive archive output_path w
  = Done (tt,
          set_fs
            (<[c_str output_path :=
                 RegularFile
                   ((MAGIC ++ [b]
                       ++ [byte_of_Z (if decide (compress archive <> 0)
                                      then 1 else 0)]
                       ++ le_bytes 8 (toc_offset_of archive))
                      ++ concat datas
                      ++ take 4 (le_bytes 8 (entry_count archive))
                      ++ concat (map write_toc_entry
                                   (elems (entries archive))))]>) w).
Proof.
  intros (He & Hc & Hs) Hv Hall Hopen.
  unfold hsgaa_write_archive, bind, fopen_wb.
  set (w1 := set_fs (<[c_str output_path := RegularFile []]>) w).
  assert (Ew : match fs w !! c_str output_path with
               | Some Unopenable => Done (false, w)
               | _ => Done (true, w1)
               end = Done (true, w1)).
  { destruct (fs w !! c_str output_path) as [[d|]|];
      [reflexivity|contradiction|reflexivity]. }
  rewrite Ew. cbn [negb].
  assert (Hh : heap w1 = heap w) by reflexivity.
  unfold write_header, bind.
  rewrite (load_readable w1 VERSION 1 [b])
    by (eapply readable_same_heap; eassumption).
  unfold ret.
  assert (Hchunks :
    write_chunks archive (Z.to_nat (image_chunk_count archive)) 0 w1
    = Done (concat datas, w1)).
  { destruct (image_chunks archive) as [cs|] eqn:Ecs;
      destruct (image_chunk_sizes archive) as [ss|] eqn:Ess;
      simpl in Hc, Hs, Hall.
    - rewrite Hc, Nat2Z.id. change 0 with (Z.of_nat 0).
      apply (write_chunks_readable archive cs ss); try assumption;
        try reflexivity.
    - destruct cs; [|simpl in Hc; lia]. inversion Hall; subst.
      rewrite Hc. reflexivity.
    - destruct ss; [|simpl in Hs; lia]. inversion Hall; subst.
      rewrite Hc. reflexivity.
    - inversion Hall; subst. rewrite Hc. reflexivity. }
  rewrite Hchunks. unfold lift. rewrite (write_toc_records archive He).
  unfold fclose_wb, w1, set_fs. simpl. rewrite insert_insert_eq.
  reflexivity.
Qed.

(** ** The reader on a well-formed file *)

Lemma fread_next (f : stream) (bs rest : list byte) (n : Z) :
  stream_at f (bs ++ rest) ->
  n = Z.of_nat (length bs) ->
  fread n f = (bs, Stream (s_data f) (s_pos f + n))
  /\ stream_at (Stream (s_data f) (s_pos f + n)) rest.
Proof.
  intros (Hpos & Hdrop) ->. unfold fread. rewrite Hdrop, Nat2Z.id.
  rewrite take_app_length. split; [reflexivity|].
  split; simpl; [lia|].
  rewrite Z2Nat.inj_add by lia. rewrite Nat2Z.id.
  rewrite <- drop_drop, Hdrop. apply drop_app_length.
Qed.

Lemma uint_of_le_bytes (w : nat) (v : Z) :
  0 <= v < 2 ^ (8 * Z.of_nat w) -> uint_of w (le_bytes w v) = Done v.
Proof.
  intros Hv. unfold uint_of. rewrite length_le_bytes.
  destruct (decide (w = w)) as [_|N]; [|contradiction].
  rewrite le_value_le_bytes, Z.mod_small by exact Hv. reflexivity.
Qed.

Lemma write_toc_entry_with (e : HSGAAEntry) :
  entry_fits e ->
  write_toc_entry e = toc_record_with (le_bytes 4 (hash32 (name e))) e.
Proof.
  intros (Hplain & Hlen & _ & _).
  assert (Hn : strlen (name e) = Z.of_nat (length (string_bytes (name e)))).
  { unfold strlen. rewrite Hplain, length_string_bytes. reflexivity. }
  unfold write_toc_entry, toc_record_with, wrap32.
  rewrite Z.mod_small by (rewrite Hn in *; lia).
  rewrite Hn, Nat2Z.id, firstn_all. reflexivity.
Qed.

(** The record loop of the reader: whatever the four bytes of the hash
    fields are, the entries come back as they were laid out. *)
Lemma read_entries_records (es : list HSGAAEntry) (hs : list (list byte))
    (f : stream) (rest : list byte) :
  Forall2 (fun h e => length h = 4%nat /\ entry_fits e) hs es ->
  stream_at f (concat (zip_with toc_record_with hs es) ++ rest) ->
  read_entries (length es) f = Done es.
Proof.
  intros Hfits. revert f.
  induction Hfits as [|h e hs es (Hh & Hplain & Hlen & Hoff & Hsize) _ IH];
    intros f Hat; [reflexivity|].
  cbn [zip_with concat] in Hat.
  unfold toc_record_with in Hat at 1. rewrite <- !app_assoc in Hat.
  assert (Hn : strlen (name e) = Z.of_nat (length (string_bytes (name e)))).
  { unfold strlen. rewrite Hplain, length_string_bytes. reflexivity. }
  rewrite Hn in Hlen, Hat.
  destruct (fread_next _ _ _ 4 Hat) as (E1 & Hat1); [lia|].
  destruct (fread_next _ _ _ 8 Hat1) as (E2 & Hat2);
    [rewrite length_le_bytes; reflexivity|].
  destruct (fread_next _ _ _ 8 Hat2) as (E3 & Hat3);
    [rewrite length_le_bytes; reflexivity|].
  destruct (fread_next _ _ _ 4 Hat3) as (E4 & Hat4);
    [rewrite length_le_bytes; reflexivity|].
  destruct (fread_next _ _ _ (Z.of_nat (length (string_bytes (name e)))) Hat4)
    as (E5 & Hat5); [reflexivity|].
  cbn [length read_entries]. rewrite E1. cbv beta iota. rewrite E2.
  cbv beta iota. rewrite E3. cbv beta iota. rewrite E4. cbv beta iota.
  rewrite !uint_of_le_bytes
    by (change (2 ^ (8 * Z.of_nat 8)) with (2 ^ 64);
        change (2 ^ (8 * Z.of_nat 4)) with (2 ^ 32); lia).
  cbn [obind].
  destruct (decide (wrap32 (Z.of_nat (length (string_bytes (name e))) + 1) = 0))
    as [E0|_].
  { unfold wrap32 in E0. rewrite Z.mod_small in E0 by lia. lia. }
  rewrite E5. cbv beta iota.
  destruct (decide (Z.of_nat (length (string_bytes (name e)))
                    <> Z.of_nat (length (string_bytes (name e)))))
    as [N|_]; [contradiction|].
  rewrite (IH _ Hat5). cbn [obind]. unfold string_bytes.
  rewrite string_of_list_byte_of_string. destruct e; reflexivity.
Qed.

Lemma strncmp_magic_same :
  strncmp (filled 4 MAGIC) (map Some (MAGIC ++ [Byte.x00])) 4 = Done 0.
Proof. vm_compute. reflexivity. Qed.

(** A file made of the header (any version byte), any body, and a table
    of contents (any hash fields), with [toc_offset] pointing at that
    table, is read as the entries laid out in it. *)
Lemma read_archive_file (es : list HSGAAEntry) (hs : list (list byte))
    (archive_path : string) (w : World) (version flags : byte)
    (body : list byte) :
  Z.of_nat (length es) < 2 ^ 32 ->
  Forall2 (fun h e => length h = 4%nat /\ entry_fits e) hs es ->
  14 + Z.of_nat (length body) < 2 ^ 63 ->
  fs w !! c_str archive_path
  = Some (RegularFile
            (archive_image version flags body
               (le_bytes 4 (Z.of_nat (length es))
                  ++ concat (zip_with toc_record_with hs es)))) ->
  hsgaa_read_archive archive_path w
  = Done (Some (mkArchive (Some es) (Z.of_nat (length es)) None None 0
                  (Z.land (byte_val flags) FLAG_ALL_COMPRESSED)),
          w).
Proof.
  intros Hcount Hfits Hbody Hfile.
  unfold hsgaa_read_archive, bind, fopen_rb. rewrite Hfile.
  set (data := archive_image _ _ _ _).
  assert (Hat0 : stream_at (Stream data 0)
            (MAGIC ++ [version] ++ [flags]
               ++ le_bytes 8 (14 + Z.of_nat (length body))
               ++ body
               ++ le_bytes 4 (Z.of_nat (length es))
               ++ concat (zip_with toc_record_with hs es)
               ++ [])).
  { split; [simpl; lia|]. simpl. unfold data, archive_image.
    rewrite app_nil_r. reflexivity. }
  destruct (fread_next _ _ _ 4 Hat0) as (E1 & Hat1); [reflexivity|].
  destruct (fread_next _ _ _ 1 Hat1) as (E2 & Hat2); [reflexivity|].
  destruct (fread_next _ _ _ 1 Hat2) as (E3 & Hat3); [reflexivity|].
  destruct (fread_next _ _ _ 8 Hat3) as (E4 & Hat4);
    [rewrite length_le_bytes; reflexivity|].
  destruct (fread_next _ _ _ (Z.of_nat (length body)) Hat4) as (_ & Hat5);
    [reflexivity|].
  cbn [s_data s_pos] in *.
  rewrite E1. cbv beta iota. unfold lift at 1.
  rewrite strncmp_magic_same.
  destruct (decide (0 <> 0)) as [N|_]; [contradiction|].
  rewrite E2. cbv beta iota. rewrite E3. cbv beta iota.
  rewrite E4. cbv beta iota. unfold lift at 1.
  rewrite uint_of_le_bytes
    by (change (2 ^ (8 * Z.of_nat 8)) with (2 ^ 64); lia).
  assert (Hseek : fseek_set (Stream data (0 + 4 + 1 + 1 + 8))
                    (14 + Z.of_nat (length body))
                  = Stream data (0 + 4 + 1 + 1 + 8 + Z.of_nat (length body))).
  { unfold fseek_set, to_long, wrap64.
    rewrite Z.mod_small by lia.
    destruct (Z.ltb_spec (14 + Z.of_nat (length body)) (2 ^ 63)) as [_|?];
      [|lia].
    destruct (Z.ltb_spec (14 + Z.of_nat (length body)) 0) as [?|_]; [lia|].
    f_equal. }
  rewrite Hseek.
  destruct (fread_next _ _ _ 4 Hat5) as (E6 & Hat6);
    [rewrite length_le_bytes; reflexivity|].
  cbn [s_data s_pos] in *.
  rewrite E6. cbv beta iota. unfold lift at 1.
  rewrite uint_of_le_bytes
    by (change (2 ^ (8 * Z.of_nat 4)) with (2 ^ 32); lia).
  unfold lift at 1.
  assert (Hflags : uint_of 1 [flags] = Done (byte_val flags)).
  { unfold uint_of. simpl. f_equal. lia. }
  rewrite Hflags. unfold lift at 1.
  rewrite Nat2Z.id.
  rewrite (read_entries_records _ _ _ _ Hfits Hat6).
  reflexivity.
Qed.

(** The table of contents of the writer is of that form. *)
Lemma write_toc_as_records (archive : HSGAAArchive) :
  entry_count archive = Z.of_nat (length (elems (entries archive))) ->
  Forall entry_fits (elems (entries archive)) ->
  write_toc archive
  = Done (le_bytes 4 (Z.of_nat (length (elems (entries archive))))
            ++ concat (zip_with toc_record_with
                         (map (fun e => le_bytes 4 (hash32 (name e)))
                            (elems (entries archive)))
                         (elems (entries archive)))).
Proof.
  intros He Hfits. rewrite (write_toc_records archive He).
  rewrite <- He.
  replace (take 4 (le_bytes 8 (entry_count archive)))
    with (le_bytes 4 (entry_count archive))
    by (symmetry; apply (take_le_bytes 4 4)).
  do 3 f_equal. clear He.
  induction Hfits as [|e es Hfit _ IH]; [reflexivity|].
  cbn [map zip_with]. rewrite IH, (write_toc_entry_with e Hfit). reflexivity.
Qed.

(** ** The name hash *)

Lemma lxor_range (n a b : Z) :
  0 <= n -> 0 <= a < 2 ^ n -> 0 <= b < 2 ^ n -> 0 <= Z.lxor a b < 2 ^ n.
Proof.
  intros Hn Ha Hb. split; [apply Z.lxor_nonneg; lia|].
  destruct (Z.eq_dec (Z.lxor a b) 0) as [->|Hne]; [lia|].
  assert (0 < Z.lxor a b) by (pose proof (proj2 (Z.lxor_nonneg a b)); lia).
  apply Z.log2_lt_pow2; [assumption|].
  pose proof (Z.log2_lxor a b ltac:(lia) ltac:(lia)) as Hl.
  assert (Hla : a = 0 \/ Z.log2 a < n).
  { destruct (Z.eq_dec a 0); [left; assumption|right].
    apply Z.log2_lt_pow2; lia. }
  assert (Hlb : b = 0 \/ Z.log2 b < n).
  { destruct (Z.eq_dec b 0); [left; assumption|right].
    apply Z.log2_lt_pow2; lia. }
  destruct Hla as [->|Hla], Hlb as [->|Hlb]; simpl in *;
    try rewrite Z.lxor_0_r in *; try rewrite Z.lxor_0_l in *; lia.
Qed.

Lemma crc_shift_range (c : Z) : 0 <= c < 2 ^ 32 -> 0 <= crc_shift c < 2 ^ 32.
Proof.
  intros Hc. unfold crc_shift.
  assert (Hs : 0 <= Z.shiftr c 1 < 2 ^ 32).
  { rewrite Z.shiftr_div_pow2 by lia. change (2 ^ 1) with 2.
    split; [apply Z.div_pos; lia|].
    apply Z.div_lt_upper_bound; lia. }
  destruct (Z.testbit c 0); [|exact Hs].
  apply lxor_range; [lia|exact Hs|unfold crc_poly; lia].
Qed.

Lemma crc_byte_range (c : Z) (b : byte) :
  0 <= c < 2 ^ 32 -> 0 <= crc_byte c b < 2 ^ 32.
Proof.
  intros Hc. unfold crc_byte.
  assert (H0 : 0 <= Z.lxor c (byte_val b) < 2 ^ 32).
  { apply lxor_range; [lia|exact Hc|]. pose proof (byte_val_range b). lia. }
  cbn [Nat.iter]. do 8 apply crc_shift_range. exact H0.
Qed.

Lemma crc32_range (crc : Z) (buf : option (list byte)) (len : Z) :
  0 <= crc < 2 ^ 32 -> 0 <= crc32 crc buf len < 2 ^ 32.
Proof.
  intros Hc. unfold crc32. destruct buf as [bs|]; [|lia].
  apply lxor_range; [lia| |lia].
  assert (H0 : 0 <= Z.lxor crc 4294967295 < 2 ^ 32)
    by (apply lxor_range; lia).
  revert H0. generalize (Z.lxor crc 4294967295).
  induction (take (Z.to_nat (wrap32 len)) bs) as [|b l IH]; intros c Hr;
    [exact Hr|].
  simpl. apply IH. apply crc_byte_range. exact Hr.
Qed.

Lemma string_bytes_c_str (s : string) :
  take (String.length (c_str s)) (string_bytes s) = string_bytes (c_str s).
Proof.
  induction s as [|c t IH]; [reflexivity|]. simpl c_str.
  destruct (decide (c = NUL)); [reflexivity|].
  change (string_bytes (String c t)) with (byte_of_ascii c :: string_bytes t).
  change (string_bytes (String c (c_str t)))
    with (byte_of_ascii c :: string_bytes (c_str t)).
  simpl. rewrite IH. reflexivity.
Qed.

Lemma hash32_c_str (s : string) : hash32 (c_str s) = hash32 s.
Proof.
  unfold hash32, strlen. rewrite c_str_idem. simpl crc32 at 2 4.
  unfold crc32. f_equal. f_equal.
  set (k := Z.to_nat (wrap32 (Z.of_nat (String.length (c_str s))))).
  assert (Hk : (k <= String.length (c_str s))%nat).
  { unfold k, wrap32.
    pose proof (Z.mod_le (Z.of_nat (String.length (c_str s))) (2 ^ 32)
                  ltac:(lia) ltac:(lia)).
    lia. }
  rewrite <- string_bytes_c_str, take_take.
  f_equal. lia.
Qed.

(** ** Writing, then reading *)

Lemma flag_bit (c : Z) :
  Z.land (byte_val (byte_of_Z (if decide (c <> 0) then 1 else 0)))
    FLAG_ALL_COMPRESSED
  = (if decide (c <> 0) then 1 else 0).
Proof. destruct (decide (c <> 0)); reflexivity. Qed.

Lemma write_header_same_world (archive : HSGAAArchive) (w w' : World)
    (header : list byte) :
  write_header archive w = Done (header, w') -> w' = w.
Proof.
  unfold write_header, bind, load, ret. change (1 =? 0) with false.
  cbv iota. intros Hrun.
  destruct (heap w !! VERSION) as [blk|]; [|discriminate].
  destruct (blk_live blk); [|discriminate].
  destruct (1 <=? Z.of_nat (length (blk_bytes blk))); [|discriminate].
  injection Hrun as _ <-. reflexivity.
Qed.

Lemma lookup_elems_Some {A} (a : option (list A)) (j : nat) (x : A) :
  elems a !! j = Some x -> array_get a (Z.of_nat j) = Done x.
Proof.
  destruct a as [l|]; simpl; [apply array_get_lookup|discriminate].
Qed.

(* ===================================================================== *)
(** * Properties beyond the claims                                        *)
(* ===================================================================== *)

(** X1: a path that does not name an openable file is reported and
    changes nothing else: [hsgaa_add_file] prints "Failed to open file"
    and leaves the archive as it was; [hsgaa_read_archive] prints
    "Failed to open archive file for reading" and returns the null
    pointer. *)
Theorem unreadable_input_is_reported `{Platform} (archive : HSGAAArchive)
    (path : string) (w : World) :
  (forall contents, fs w !! c_str path <> Some (RegularFile contents)) ->
  hsgaa_add_file archive path w
  = Done (archive, to_stderr "Failed to open file" w)
  /\ hsgaa_read_archive path w
     = Done (None, to_stderr "Failed to open archive file for reading" w).
Proof.
  intros Hno. split; [apply add_file_missing_run; exact Hno|].
  unfold hsgaa_read_archive, bind, fopen_rb.
  destruct (fs w !! c_str path) as [[contents|]|] eqn:Ef;
    [exfalso; exact (Hno contents eq_refl)|reflexivity|reflexivity].
Qed.

Lemma unreadable_input_is_reported_witness :
  hsgaa_add_file (H := sample_platform) sample_built "missing.bin" sample_world
  = Done (sample_built, to_stderr "Failed to open file" sample_world)
  /\ hsgaa_read_archive "missing.bin" sample_world
     = Done (None,
             to_stderr "Failed to open archive file for reading" sample_world).
Proof.
  apply (unreadable_input_is_reported (H := sample_platform) sample_built
           "missing.bin" sample_world).
  intros contents. vm_compute. discriminate.
Defined.

(** X2: when the output path cannot be opened, [hsgaa_write_archive]
    prints "Failed to open archive file for writing" and returns; no
    header byte is produced, no chunk is read, no file is touched. *)
Theorem write_unopenable_output (archive : HSGAAArchive) (output_path : string)
    (w : World) :
  fs w !! c_str output_path = Some Unopenable ->
  hsgaa_write_archive archive output_path w
  = Done (tt, to_stderr "Failed to open archive file for writing" w).
Proof.
  intros Hu. unfold hsgaa_write_archive, bind, fopen_wb. rewrite Hu.
  reflexivity.
Qed.

Lemma write_unopenable_output_witness :
  hsgaa_write_archive live_archive "locked.out" live_world
  = Done (tt, to_stderr "Failed to open archive file for writing" live_world).
Proof.
  apply (write_unopenable_output live_archive "locked.out" live_world).
  vm_compute. reflexivity.
Defined.

(** X3: when the name is found but the output path cannot be opened,
    [hsgaa_extract_file] prints "Failed to open file for extraction" and
    returns without touching the chunk arrays, so even an archive whose
    chunk arrays are null or dangling gets through this call. *)
Theorem extract_unopenable_output (archive : HSGAAArchive)
    (es : list HSGAAEntry) (file_name output_path : string) (j : nat)
    (w : World) :
  entries archive = Some es ->
  entry_count archive = Z.of_nat (length es) ->
  first_match es file_name j ->
  fs w !! c_str output_path = Some Unopenable ->
  hsgaa_extract_file archive file_name output_path w
  = Done (tt, to_stderr "Failed to open file for extraction" w).
Proof.
  intros Ees Hlen Hfirst Hu.
  rewrite (extract_at_first_match archive es file_name output_path j w
             Ees Hlen Hfirst).
  unfold bind, fopen_wb. rewrite Hu. reflexivity.
Qed.

Lemma extract_unopenable_output_witness :
  hsgaa_extract_file scenario_loaded "a.bin" "locked.out" live_world
  = Done (tt, to_stderr "Failed to open file for extraction" live_world).
Proof.
  apply (extract_unopenable_output scenario_loaded [mkEntry "a.bin" 14 3]
           "a.bin" "locked.out" 0 live_world).
  - reflexivity.
  - reflexivity.
  - split.
    + eexists. split; [reflexivity|]. vm_compute. reflexivity.
    + intros k e Hk. lia.
  - vm_compute. reflexivity.
Defined.

(** X4: without compression, adding an openable file to an archive whose
    arrays agree with their counts always succeeds and appends exactly
    one entry and one chunk, whatever names are already there: the name
    is the path, the size is the file's length, the offset is 0 for the
    first chunk and otherwise the pointer of the previous chunk; the
    chunk pointer is the buffer [malloc] returned, and that buffer holds
    the file's bytes but is already freed when the call returns. *)
Theorem plain_add_appends_freed_chunk `{Platform} (archive : HSGAAArchive)
    (file_path : string) (w : World) (contents : list byte) :
  compress archive = 0 ->
  counts_ok archive ->
  fs w !! c_str file_path = Some (RegularFile contents) ->
  hsgaa_add_file archive file_path w
  = Done
      (mkArchive
         (Some (elems (entries archive)
                  ++ [mkEntry (c_str file_path)
                        (if decide (image_chunk_count archive <> 0)
                         then default 0 (last (elems (image_chunks archive)))
                         else 0)
                        (Z.of_nat (length contents))]))
         (entry_count archive + 1)
         (Some (elems (image_chunks archive)
                  ++ [malloc_addr (heap w) (Z.of_nat (length contents))]))
         (Some (elems (image_chunk_sizes archive)
                  ++ [Z.of_nat (length contents)]))
         (image_chunk_count archive + 1)
         0,
       set_heap
         (<[malloc_addr (heap w) (Z.of_nat (length contents))
            := Block contents false]>) w).
Proof. apply add_file_plain_run. Qed.

Lemma plain_add_appends_freed_chunk_witness :
  hsgaa_add_file (H := sample_platform) sample_built "a.bin" sample_built_world
  = Done
      (mkArchive
         (Some [mkEntry "a.bin" 0 3; mkEntry "b.bin" 4096 5;
                mkEntry "a.bin" 4112 3])
         3 (Some [4096; 4112; 4128]) (Some [3; 5; 3]) 3 0,
       set_heap (<[4128 := Block (bytes_of [1; 2; 3]) false]>)
         sample_built_world).
Proof.
  apply (plain_add_appends_freed_chunk (H := sample_platform) sample_built
           "a.bin"
           sample_built_world (bytes_of [1; 2; 3])).
  - reflexivity.
  - repeat split.
  - vm_compute. reflexivity.
Defined.

(** X5: building without compression from regular files completes and
    keeps the file system; afterwards the counts agree with the arrays,
    there is one entry and one chunk per file, each entry's size is the
    recorded chunk size, and every pointer in [image_chunks] refers to a
    buffer that has been freed. *)
Theorem build_leaves_chunks_freed `{Platform} (paths : list string)
    (w : World) :
  Forall (fun path => exists contents,
            fs w !! c_str path = Some (RegularFile contents)) paths ->
  exists archive w',
    add_files (hsgaa_create_archive 0) paths w = Done (archive, w')
    /\ fs w' = fs w
    /\ counts_ok archive
    /\ entry_count archive = image_chunk_count archive
    /\ entry_count archive = Z.of_nat (length paths)
    /\ map size (elems (entries archive)) = elems (image_chunk_sizes archive)
    /\ dangling w' archive.
Proof.
  intros Hall.
  destruct (add_files_plain_run paths (hsgaa_create_archive 0) w
              (plain_state_create w))
    as (a & w' & Erun & (_ & Hc & Hec & Hsz & Hd) & Hfs & _).
  destruct (add_files_all_present paths (hsgaa_create_archive 0) w
              (plain_state_create w) Hall)
    as (a2 & w2 & added & Erun2 & Eadd & Hf).
  rewrite Erun in Erun2. injection Erun2 as <- <-.
  exists a, w'. repeat split; try assumption; try apply Hc.
  destruct Hc as (He & _). rewrite He, Eadd. simpl. f_equal.
  apply (Forall2_length _ _ _ Hf).
Qed.

Lemma build_leaves_chunks_freed_witness :
  exists archive w',
    add_files (H := sample_platform) (hsgaa_create_archive 0)
      ["a.bin"%string; "b.bin"%string] sample_world
    = Done (archive, w')
    /\ fs w' = fs sample_world
    /\ counts_ok archive
    /\ entry_count archive = image_chunk_count archive
    /\ entry_count archive
       = Z.of_nat (length ["a.bin"%string; "b.bin"%string])
    /\ map size (elems (entries archive)) = elems (image_chunk_sizes archive)
    /\ dangling w' archive.
Proof.
  apply (build_leaves_chunks_freed (H := sample_platform)
           ["a.bin"%string; "b.bin"%string] sample_world).
  repeat constructor; eexists; vm_compute; reflexivity.
Defined.

(** X6: when every path names an openable file, building without
    compression adds all of them in call order: the entry names are the
    paths, the entry sizes are the file lengths, and the entry count is
    the number of paths (a path given twice gives two entries). *)
Theorem build_adds_every_file `{Platform} (paths : list string) (w : World) :
  Forall (fun path => exists contents,
            fs w !! c_str path = Some (RegularFile contents)) paths ->
  exists archive w',
    add_files (hsgaa_create_archive 0) paths w = Done (archive, w')
    /\ map name (elems (entries archive)) = map c_str paths
    /\ entry_count archive = Z.of_nat (length paths)
    /\ Forall2 (fun e path =>
                  exists contents,
                    fs w !! c_str path = Some (RegularFile contents)
                    /\ size e = Z.of_nat (length contents))
         (elems (entries archive)) paths.
Proof.
  intros Hall.
  destruct (add_files_all_present paths (hsgaa_create_archive 0) w
              (plain_state_create w) Hall)
    as (a & w' & added & Erun & Eadd & Hf).
  destruct (add_files_plain_run paths (hsgaa_create_archive 0) w
              (plain_state_create w))
    as (a2 & w2 & Erun2 & (_ & (He & _) & _) & _).
  rewrite Erun in Erun2. injection Erun2 as <- <-.
  simpl in Eadd. exists a, w'. rewrite Eadd in *.
  split; [exact Erun|].
  assert (Hnames : map name added = map c_str paths).
  { clear -Hf. induction Hf as [|e p es ps (En & _) _ IH]; [reflexivity|].
    simpl. rewrite En, IH. reflexivity. }
  split; [exact Hnames|]. split.
  - rewrite He. f_equal.
    rewrite <- (length_map name), Hnames, length_map. reflexivity.
  - eapply Forall2_impl; [exact Hf|]. intros e p (_ & Hc). exact Hc.
Qed.

Lemma build_adds_every_file_witness :
  exists archive w',
    add_files (H := sample_platform) (hsgaa_create_archive 0)
      ["a.bin"%string; "b.bin"%string; "a.bin"%string] sample_world
    = Done (archive, w')
    /\ map name (elems (entries archive))
       = map c_str ["a.bin"%string; "b.bin"%string; "a.bin"%string]
    /\ entry_count archive = Z.of_nat 3
    /\ Forall2 (fun e path =>
                  exists contents,
                    fs sample_world !! c_str path = Some (RegularFile contents)
                    /\ size e = Z.of_nat (length contents))
         (elems (entries archive))
         ["a.bin"%string; "b.bin"%string; "a.bin"%string].
Proof.
  apply (build_adds_every_file (H := sample_platform)
           ["a.bin"%string; "b.bin"%string; "a.bin"%string] sample_world).
  repeat constructor; eexists; vm_compute; reflexivity.
Defined.

(** X7: an archive built without compression that holds at least one
    non-empty file cannot be written: with an openable output path,
    [hsgaa_write_archive] never completes.  It faults at the version
    byte or, past it, at the first non-empty chunk, whose buffer
    [hsgaa_add_file] has already freed. *)
Theorem write_after_build_faults `{Platform} (paths : list string)
    (w w1 : World) (archive : HSGAAArchive) (output_path : string) :
  add_files (hsgaa_create_archive 0) paths w = Done (archive, w1) ->
  (exists s, s ∈ elems (image_chunk_sizes archive) /\ s <> 0) ->
  fs w1 !! c_str output_path <> Some Unopenable ->
  exists f, hsgaa_write_archive archive output_path w1 = Fault f.
Proof.
  intros Hrun Hsome Hopen.
  destruct (add_files_plain_run paths (hsgaa_create_archive 0) w
              (plain_state_create w))
    as (a & w' & Erun & (_ & Hc & _ & _ & Hd) & _).
  rewrite Hrun in Erun. injection Erun as <- <-.
  unfold hsgaa_write_archive, bind, fopen_wb.
  set (w2 := set_fs (<[c_str output_path := RegularFile []]>) w1).
  assert (Ew : match fs w1 !! c_str output_path with
               | Some Unopenable => Done (false, w1)
               | _ => Done (true, w2)
               end = Done (true, w2)).
  { destruct (fs w1 !! c_str output_path) as [[d|]|];
      [reflexivity|contradiction|reflexivity]. }
  rewrite Ew. cbn [negb].
  destruct (write_header archive w2) as [[header w3]|f] eqn:Eh;
    [|exists f; reflexivity].
  apply write_header_same_world in Eh. subst w3.
  destruct (write_chunks_dangling archive
              (length (elems (image_chunks archive))) 0 w2 Hc Hd eq_refl Hsome)
    as (p & _ & Ep).
  destruct Hc as (_ & Hcc & _). rewrite Hcc, Nat2Z.id.
  change (Z.of_nat 0) with 0 in Ep. rewrite Ep.
  eexists. reflexivity.
Qed.

Lemma write_after_build_faults_witness :
  exists f, hsgaa_write_archive sample_built "out.aaf" sample_built_world
            = Fault f.
Proof.
  apply (write_after_build_faults (H := sample_platform)
           ["a.bin"%string; "b.bin"%string] sample_world sample_built_world
           sample_built "out.aaf").
  - vm_compute. reflexivity.
  - exists 3. split; [left|lia].
  - vm_compute. discriminate.
Defined.

(** X8: in the process that built it (compression off, no empty file
    among the entries), an archive cannot be extracted from: for a name
    that some entry carries and an openable output path,
    [hsgaa_extract_file] creates the output file and then reads a chunk
    buffer that [hsgaa_add_file] has already freed. *)
Theorem extract_after_build_faults `{Platform} (paths : list string)
    (w w1 : World) (archive : HSGAAArchive) (file_name output_path : string) :
  add_files (hsgaa_create_archive 0) paths w = Done (archive, w1) ->
  Forall (fun e => size e <> 0) (elems (entries archive)) ->
  (exists e, e ∈ elems (entries archive) /\ strcmp (name e) file_name = 0) ->
  fs w1 !! c_str output_path <> Some Unopenable ->
  exists p,
    p ∈ elems (image_chunks archive)
    /\ hsgaa_extract_file archive file_name output_path w1
       = Fault (UseAfterFree p).
Proof.
  intros Hrun Hnz Hex Hopen.
  destruct (add_files_plain_run paths (hsgaa_create_archive 0) w
              (plain_state_create w))
    as (a & w' & Erun & (_ & Hc & Hec & Hsz & Hd) & _).
  rewrite Hrun in Erun. injection Erun as <- <-.
  assert (Hnz' : Forall (fun s => s <> 0) (elems (image_chunk_sizes archive))).
  { rewrite <- Hsz. apply Forall_map. exact Hnz. }
  destruct (extract_from_dangling archive file_name output_path
              (length (elems (entries archive))) 0 w1 Hc Hec Hd Hnz' eq_refl
              Hex Hopen) as (p & Hp & Ep).
  exists p. split; [exact Hp|].
  unfold hsgaa_extract_file. destruct Hc as (He & _). rewrite He, Nat2Z.id.
  exact Ep.
Qed.

Lemma extract_after_build_faults_witness :
  exists p,
    p ∈ elems (image_chunks sample_built)
    /\ hsgaa_extract_file sample_built "b.bin" "b.out" sample_built_world
       = Fault (UseAfterFree p).
Proof.
  apply (extract_after_build_faults (H := sample_platform)
           ["a.bin"%string; "b.bin"%string] sample_world sample_built_world
           sample_built "b.bin" "b.out").
  - vm_compute. reflexivity.
  - repeat constructor; simpl; lia.
  - exists (mkEntry "b.bin" 4096 5). split; [right; left|].
    vm_compute. reflexivity.
  - vm_compute. discriminate.
Defined.

(** X9: what a successful extraction delivers.  The first entry that
    compares equal decides (later entries of the same name are never
    reached); the output file is created or truncated and receives
    exactly the [image_chunk_sizes[j]] bytes at [image_chunks[j]], as
    they are: there is no decompression, whatever the archive's
    [compress] flag; the heap and the standard streams are untouched. *)
Theorem extract_writes_chunk_verbatim (archive : HSGAAArchive)
    (es : list HSGAAEntry) (file_name output_path : string) (j : nat)
    (p n : Z) (data : list byte) (w : World) :
  entries archive = Some es ->
  entry_count archive = Z.of_nat (length es) ->
  first_match es file_name j ->
  elems (image_chunks archive) !! j = Some p ->
  elems (image_chunk_sizes archive) !! j = Some n ->
  readable w p n data ->
  fs w !! c_str output_path <> Some Unopenable ->
  hsgaa_extract_file archive file_name output_path w
  = Done (tt, set_fs (<[c_str output_path := RegularFile data]>) w).
Proof.
  intros Ees Hlen Hfirst Ep En Hr Hopen.
  rewrite (extract_at_first_match archive es file_name output_path j w
             Ees Hlen Hfirst).
  unfold bind, fopen_wb.
  set (w1 := set_fs (<[c_str output_path := RegularFile []]>) w).
  assert (Ew : match fs w !! c_str output_path with
               | Some Unopenable => Done (false, w)
               | _ => Done (true, w1)
               end = Done (true, w1)).
  { destruct (fs w !! c_str output_path) as [[d|]|];
      [reflexivity|contradiction|reflexivity]. }
  rewrite Ew. cbn [negb]. unfold lift.
  rewrite (lookup_elems_Some _ _ _ Ep), (lookup_elems_Some _ _ _ En).
  rewrite (load_readable w1 p n data)
    by (eapply readable_same_heap; [reflexivity|exact Hr]).
  unfold fclose_wb, w1, set_fs. simpl. rewrite insert_insert_eq.
  reflexivity.
Qed.

Lemma extract_writes_chunk_verbatim_witness :
  hsgaa_extract_file live_archive "a.bin" "a.out" live_world
  = Done (tt,
          set_fs (<[c_str "a.out" := RegularFile (bytes_of [1; 2; 3])]>)
            live_world).
Proof.
  apply (extract_writes_chunk_verbatim live_archive [mkEntry "a.bin" 0 3]
           "a.bin" "a.out" 0 4096 3 (bytes_of [1; 2; 3]) live_world).
  - reflexivity.
  - reflexivity.
  - split.
    + eexists. split; [reflexivity|]. vm_compute. reflexivity.
    + intros k e Hk. lia.
  - reflexivity.
  - reflexivity.
  - right. eexists. split; [vm_compute; reflexivity|].
    split; [reflexivity|]. split; [simpl; lia|reflexivity].
  - vm_compute. discriminate.
Defined.

Lemma list_entries_run (archive : HSGAAArchive) (w : World) :
  entry_count archive = Z.of_nat (length (elems (entries archive))) ->
  hsgaa_list_entries archive w
  = Done (tt, mkWorld (heap w) (fs w) (stderr w)
                (stdout w
                   ++ map (fun e => c_str (name e)) (elems (entries archive)))).
Proof.
  intros He. unfold hsgaa_list_entries. rewrite He, Nat2Z.id.
  destruct (entries archive) as [es|] eqn:Ees.
  - change (elems (Some es)) with es. change 0 with (Z.of_nat 0).
    rewrite (list_entries_from_run archive es (length es) 0 w Ees eq_refl).
    reflexivity.
  - simpl. rewrite app_nil_r. destruct w; reflexivity.
Qed.

(** X10: [hsgaa_list_entries] prints the entry names in entry order, one
    line each and each as a C string (up to its first NUL), and changes
    nothing else; on an archive without entries it prints nothing. *)
Theorem list_entries_prints_names (archive : HSGAAArchive) (w : World) :
  entry_count archive = Z.of_nat (length (elems (entries archive))) ->
  hsgaa_list_entries archive w
  = Done (tt, mkWorld (heap w) (fs w) (stderr w)
                (stdout w
                   ++ map (fun e => c_str (name e)) (elems (entries archive)))).
Proof. apply list_entries_run. Qed.

Lemma list_entries_prints_names_witness :
  hsgaa_list_entries sample_built sample_world
  = Done (tt, mkWorld (heap sample_world) (fs sample_world)
                (stderr sample_world)
                (stdout sample_world
                   ++ map (fun e => c_str (name e))
                        (elems (entries sample_built)))).
Proof.
  apply (list_entries_prints_names sample_built sample_world).
  reflexivity.
Defined.

(** X11: building from openable files and then listing prints the paths
    that were added, in the order of the calls. *)
Theorem list_after_build `{Platform} (paths : list string) (w : World) :
  Forall (fun path => exists contents,
            fs w !! c_str path = Some (RegularFile contents)) paths ->
  exists w',
    (archive <- add_files (hsgaa_create_archive 0) paths ;
     hsgaa_list_entries archive) w
    = Done (tt, w')
    /\ stdout w' = stdout w ++ map c_str paths
    /\ fs w' = fs w.
Proof.
  intros Hall.
  destruct (add_files_all_present paths (hsgaa_create_archive 0) w
              (plain_state_create w) Hall)
    as (a & w1 & added & Erun & Eadd & Hf).
  destruct (add_files_plain_run paths (hsgaa_create_archive 0) w
              (plain_state_create w))
    as (a2 & w2 & Erun2 & (_ & (He & _) & _) & Hfs & Hout).
  rewrite Erun in Erun2. injection Erun2 as <- <-.
  simpl in Eadd.
  eexists. unfold bind. rewrite Erun.
  rewrite (list_entries_run a w1 He). split; [reflexivity|].
  simpl. split; [|exact Hfs].
  rewrite Eadd. f_equal; [exact Hout|].
  clear -Hf. induction Hf as [|e p es ps (En & _) _ IH]; [reflexivity|].
  simpl. rewrite En, c_str_idem, IH. reflexivity.
Qed.

Lemma list_after_build_witness :
  exists w',
    (archive <- add_files (H := sample_platform) (hsgaa_create_archive 0)
                  ["b.bin"%string; "a.bin"%string] ;
     hsgaa_list_entries archive) sample_world
    = Done (tt, w')
    /\ stdout w'
       = stdout sample_world ++ map c_str ["b.bin"%string; "a.bin"%string]
    /\ fs w' = fs sample_world.
Proof.
  apply (list_after_build (H := sample_platform)
           ["b.bin"%string; "a.bin"%string] sample_world).
  repeat constructor; eexists; vm_compute; reflexivity.
Defined.

(** X12: on any archive whose [entry_count] is the length of its entry
    array (one under construction as well as a loaded one), a name that
    [strcmp] finds unequal to every entry makes [hsgaa_extract_file]
    print "File not found in archive: <name>" and return; the output
    path is not opened and nothing else changes.  An archive without
    entries answers every name this way. *)
Theorem extract_not_found (archive : HSGAAArchive)
    (file_name output_path : string) (w : World) :
  entry_count archive = Z.of_nat (length (elems (entries archive))) ->
  (forall e, e ∈ elems (entries archive) -> strcmp (name e) file_name <> 0) ->
  hsgaa_extract_file archive file_name output_path w
  = Done (tt,
          to_stderr ("File not found in archive: " +:+ c_str file_name) w).
Proof.
  intros He Hno. unfold hsgaa_extract_file. rewrite He, Nat2Z.id.
  destruct (entries archive) as [es|] eqn:Ees; [|reflexivity].
  change (elems (Some es)) with es in *. change 0 with (Z.of_nat 0).
  apply (extract_from_not_found archive es file_name output_path
           (length es) 0 w Ees eq_refl).
  exact Hno.
Qed.

Lemma extract_not_found_witness :
  hsgaa_extract_file sample_built "c.bin" "c.out" sample_built_world
  = Done (tt,
          to_stderr ("File not found in archive: " +:+ c_str "c.bin")
            sample_built_world).
Proof.
  apply (extract_not_found sample_built "c.bin" "c.out" sample_built_world).
  - reflexivity.
  - intros e Hin. simpl in Hin.
    apply elem_of_cons in Hin as [->|Hin]; [vm_compute; discriminate|].
    apply elem_of_cons in Hin as [->|Hin]; [vm_compute; discriminate|].
    inversion Hin.
Defined.

(** X13: the byte stream of a completed write.  When every read the
    writer makes is a defined one (a byte [b] at address [VERSION], and
    for each chunk a live buffer of at least its size) and the output
    path can be opened, [hsgaa_write_archive] replaces the output file
    by: the magic, [b], the flag byte (1 iff [compress] is non-zero), the
    8-byte [toc_offset], the chunk bytes in order, the 4-byte entry count
    and the records.  The table of contents starts at byte
    14 + total chunk bytes, whatever [toc_offset] says. *)
Theorem write_archive_layout (archive : HSGAAArchive) (output_path : string)
    (w : World) (b : byte) (datas : list (list byte)) :
  counts_ok archive ->
  readable w VERSION 1 [b] ->
  Forall3 (readable w) (elems (image_chunks archive))
    (elems (image_chunk_sizes archive)) datas ->
  fs w !! c_str output_path <> Some Unopenable ->
  hsgaa_write_archive archive output_path w
  = Done (tt,
          set_fs
            (<[c_str output_path :=
                 RegularFile
                   ((MAGIC ++ [b]
                       ++ [byte_of_Z (if decide (compress archive <> 0)
                                      then 1 else 0)]
                       ++ le_bytes 8 (toc_offset_of archive))
                      ++ concat datas
                      ++ take 4 (le_bytes 8 (entry_count archive))
                      ++ concat (map write_toc_entry
                                   (elems (entries archive))))]>) w)
  /\ Z.of_nat (length ((MAGIC ++ [b]
                          ++ [byte_of_Z (if decide (compress archive <> 0)
                                         then 1 else 0)]
                          ++ le_bytes 8 (toc_offset_of archive))
                         ++ concat datas))
     = 14 + chunk_bytes_total archive.
Proof.
  intros Hc Hv Hall Hopen. split; [apply write_archive_run; assumption|].
  rewrite length_app, Nat2Z.inj_add, (chunk_lengths _ _ _ _ Hall).
  rewrite !length_app, length_le_bytes. reflexivity.
Qed.

Lemma write_archive_layout_witness :
  hsgaa_write_archive live_archive "out.aaf" live_world
  = Done (tt,
          set_fs
            (<[c_str "out.aaf" :=
                 RegularFile
                   ((MAGIC ++ [byte_of_Z 1]
                       ++ [byte_of_Z (if decide (compress live_archive <> 0)
                                      then 1 else 0)]
                       ++ le_bytes 8 (toc_offset_of live_archive))
                      ++ concat [bytes_of [1; 2; 3]]
                      ++ take 4 (le_bytes 8 (entry_count live_archive))
                      ++ concat (map write_toc_entry
                                   (elems (entries live_archive))))]>)
            live_world)
  /\ Z.of_nat (length ((MAGIC ++ [byte_of_Z 1]
                          ++ [byte_of_Z (if decide (compress live_archive <> 0)
                                         then 1 else 0)]
                          ++ le_bytes 8 (toc_offset_of live_archive))
                         ++ concat [bytes_of [1; 2; 3]]))
     = 14 + chunk_bytes_total live_archive.
Proof.
  apply (write_archive_layout live_archive "out.aaf" live_world
           (byte_of_Z 1) [bytes_of [1; 2; 3]]).
  - repeat split.
  - right. eexists. split; [vm_compute; reflexivity|].
    split; [reflexivity|]. split; [simpl; lia|reflexivity].
  - constructor; [|constructor].
    right. eexists. split; [vm_compute; reflexivity|].
    split; [reflexivity|]. split; [simpl; lia|reflexivity].
  - vm_compute. discriminate.
Defined.

(** X14: the reader inverts the writer's table of contents.  A file made
    of a header whose [toc_offset] points right after the chunk region,
    any chunk region, and the table of contents [write_toc] produces for
    an archive (names without inner NUL and shorter than 2^32 - 1,
    offsets and sizes in [uint64_t] range, fewer than 2^32 entries) is
    read back as the same entries in the same order, with the same
    [entry_count]; [compress] is bit 0 of the flag byte. *)
Theorem read_inverts_write_toc (archive : HSGAAArchive) (archive_path : string)
    (w : World) (version flags : byte) (body toc : list byte) :
  entry_count archive = Z.of_nat (length (elems (entries archive))) ->
  entry_count archive < 2 ^ 32 ->
  Forall entry_fits (elems (entries archive)) ->
  14 + Z.of_nat (length body) < 2 ^ 63 ->
  write_toc archive = Done toc ->
  fs w !! c_str archive_path
  = Some (RegularFile (archive_image version flags body toc)) ->
  hsgaa_read_archive archive_path w
  = Done (Some (mkArchive (Some (elems (entries archive)))
                  (entry_count archive) None None 0
                  (Z.land (byte_val flags) FLAG_ALL_COMPRESSED)),
          w).
Proof.
  intros He Hcount Hfits Hbody Htoc Hfile.
  rewrite (write_toc_as_records archive He Hfits) in Htoc.
  assert (Etoc : toc = le_bytes 4 (Z.of_nat (length (elems (entries archive))))
                         ++ concat (zip_with toc_record_with
                                      (map (fun e => le_bytes 4 (hash32 (name e)))
                                         (elems (entries archive)))
                                      (elems (entries archive)))).
  { exact (f_equal (fun o => match o with Done x => x | Fault _ => [] end)
             (eq_sym Htoc)). }
  subst toc. rewrite He.
  apply (read_archive_file (elems (entries archive))
           (map (fun e => le_bytes 4 (hash32 (name e)))
              (elems (entries archive)))
           archive_path w version flags body); try assumption; [lia|].
  clear -Hfits. induction Hfits as [|e es Hfit _ IH]; constructor;
    [split; [apply length_le_bytes|exact Hfit]|exact IH].
Qed.

Lemma read_inverts_write_toc_witness :
  hsgaa_read_archive "scenario.aaf" scenario_world
  = Done (Some (mkArchive (Some (elems (entries scenario_loaded)))
                  (entry_count scenario_loaded) None None 0
                  (Z.land (byte_val (byte_of_Z 0)) FLAG_ALL_COMPRESSED)),
          scenario_world).
Proof.
  apply (read_inverts_write_toc scenario_loaded "scenario.aaf" scenario_world
           (byte_of_Z 1) (byte_of_Z 0) (bytes_of [1; 2; 3])
           (spec_toc [mkEntry "a.bin" 14 3])).
  - reflexivity.
  - reflexivity.
  - constructor; [|constructor].
    split; [reflexivity|]. split; [vm_compute; reflexivity|].
    simpl. lia.
  - simpl. lia.
  - vm_compute. reflexivity.
  - vm_compute. reflexivity.
Defined.

(** X15: what the reader does not check.  The version byte and the
    [name_hash] field of every record are read and dropped: a file with
    any version byte and any four bytes in each hash field is accepted
    and gives the entries laid out in its records. *)
Theorem read_ignores_version_and_hashes (es : list HSGAAEntry)
    (hs : list (list byte)) (archive_path : string) (w : World)
    (version flags : byte) (body : list byte) :
  Z.of_nat (length es) < 2 ^ 32 ->
  Forall2 (fun h e => length h = 4%nat /\ entry_fits e) hs es ->
  14 + Z.of_nat (length body) < 2 ^ 63 ->
  fs w !! c_str archive_path
  = Some (RegularFile
            (archive_image version flags body
               (le_bytes 4 (Z.of_nat (length es))
                  ++ concat (zip_with toc_record_with hs es)))) ->
  hsgaa_read_archive archive_path w
  = Done (Some (mkArchive (Some es) (Z.of_nat (length es)) None None 0
                  (Z.land (byte_val flags) FLAG_ALL_COMPRESSED)),
          w).
Proof. apply read_archive_file. Qed.

Lemma read_ignores_version_and_hashes_witness :
  hsgaa_read_archive "unhashed.aaf" unhashed_world
  = Done (Some (mkArchive (Some [mkEntry "a.bin" 14 3])
                  (Z.of_nat (length [mkEntry "a.bin" 14 3])) None None 0
                  (Z.land (byte_val (byte_of_Z 1)) FLAG_ALL_COMPRESSED)),
          unhashed_world).
Proof.
  apply (read_ignores_version_and_hashes [mkEntry "a.bin" 14 3]
           [le_bytes 4 0] "unhashed.aaf" unhashed_world
           (byte_of_Z 9) (byte_of_Z 1) (bytes_of [1; 2; 3])).
  - reflexivity.
  - constructor; [|constructor].
    split; [reflexivity|].
    split; [reflexivity|]. split; [vm_compute; reflexivity|].
    simpl. lia.
  - simpl. lia.
  - vm_compute. reflexivity.
Defined.

(** X16: writing and then reading.  When the write completes (every
    read it makes is a defined one) and the stored chunk bytes total
    exactly [sizeof(HSGAAEntry) * entry_count], so that the header's
    [toc_offset] happens to be where the table of contents is, reading
    the written file gives back the same entries and entry count, no
    chunk at all (null arrays, count 0), and [compress] normalised to
    0 or 1. *)
Theorem written_archive_reads_back (archive : HSGAAArchive) (path : string)
    (w : World) (b : byte) (datas : list (list byte)) :
  counts_ok archive ->
  entry_count archive < 2 ^ 32 ->
  Forall entry_fits (elems (entries archive)) ->
  readable w VERSION 1 [b] ->
  Forall3 (readable w) (elems (image_chunks archive))
    (elems (image_chunk_sizes archive)) datas ->
  chunk_bytes_total archive = sizeof_HSGAAEntry * entry_count archive ->
  fs w !! c_str path <> Some Unopenable ->
  exists w',
    (_ <- hsgaa_write_archive archive path ; hsgaa_read_archive path) w
    = Done (Some (mkArchive (Some (elems (entries archive)))
                    (entry_count archive) None None 0
                    (if decide (compress archive <> 0) then 1 else 0)),
            w')
    /\ heap w' = heap w.
Proof.
  intros Hc Hcount Hfits Hv Hall Htotal Hopen.
  pose proof Hc as (He & _ & _).
  pose proof (chunk_lengths _ _ _ _ Hall) as Hbody.
  fold (chunk_bytes_total archive) in Hbody.
  assert (Hoff : toc_offset_of archive
                 = 14 + Z.of_nat (length (concat datas))).
  { unfold toc_offset_of, wrap64. rewrite Hbody, Htotal.
    unfold sizeof_HSGAAEntry in *. rewrite Z.mod_small; lia. }
  assert (Htoc : take 4 (le_bytes 8 (entry_count archive))
                   ++ concat (map write_toc_entry (elems (entries archive)))
                 = le_bytes 4 (Z.of_nat (length (elems (entries archive))))
                     ++ concat (zip_with toc_record_with
                                  (map (fun e => le_bytes 4 (hash32 (name e)))
                                     (elems (entries archive)))
                                  (elems (entries archive)))).
  { pose proof (write_toc_as_records archive He Hfits) as E.
    rewrite (write_toc_records archive He) in E.
    exact (f_equal (fun o => match o with Done x => x | Fault _ => [] end) E). }
  eexists. split.
  - rewrite <- (flag_bit (compress archive)). rewrite He.
    unfold bind at 1.
    rewrite (write_archive_run archive path w b datas Hc Hv Hall Hopen).
    apply (read_archive_file (elems (entries archive))
             (map (fun e => le_bytes 4 (hash32 (name e)))
                (elems (entries archive)))
             path _ b
             (byte_of_Z (if decide (compress archive <> 0) then 1 else 0))
             (concat datas)).
    + lia.
    + clear -Hfits. induction Hfits as [|e es Hfit _ IH]; constructor;
        [split; [apply length_le_bytes|exact Hfit]|exact IH].
    + unfold sizeof_HSGAAEntry in *. lia.
    + cbn [fs set_fs]. rewrite lookup_insert_eq. unfold archive_image.
      rewrite Hoff, Htoc. rewrite <- !app_assoc. reflexivity.
  - reflexivity.
Qed.

Lemma written_archive_reads_back_witness :
  exists w',
    (_ <- hsgaa_write_archive aligned_archive "out.aaf" ;
     hsgaa_read_archive "out.aaf") aligned_world
    = Done (Some (mkArchive (Some (elems (entries aligned_archive)))
                    (entry_count aligned_archive) None None 0
                    (if decide (compress aligned_archive <> 0) then 1 else 0)),
            w')
    /\ heap w' = heap aligned_world.
Proof.
  apply (written_archive_reads_back aligned_archive "out.aaf"
           aligned_world (byte_of_Z 1) [replicate 24 (byte_of_Z 7)]).
  - repeat split.
  - reflexivity.
  - constructor; [|constructor].
    split; [reflexivity|]. split; [vm_compute; reflexivity|].
    simpl. lia.
  - right. eexists. split; [vm_compute; reflexivity|].
    split; [reflexivity|]. split; [simpl; lia|reflexivity].
  - constructor; [|constructor].
    right. eexists. split; [vm_compute; reflexivity|].
    split; [reflexivity|]. split; [simpl; lia|reflexivity].
  - reflexivity.
  - vm_compute. discriminate.
Defined.

(** X17: [hash32] agrees with [strcmp]: two names that [strcmp] finds
    equal (the same characters up to the first NUL) have the same hash.
    The hash is a 32-bit value, so the four bytes written to the table
    of contents hold it without loss. *)
Theorem hash32_respects_strcmp (s1 s2 : string) :
  strcmp s1 s2 = 0 ->
  hash32 s1 = hash32 s2
  /\ 0 <= hash32 s1 < 2 ^ 32
  /\ le_value (le_bytes 4 (hash32 s1)) = hash32 s1.
Proof.
  intros E. apply strcmp_zero_iff in E.
  assert (Hr : 0 <= hash32 s1 < 2 ^ 32).
  { unfold hash32. apply crc32_range. simpl. lia. }
  split; [|split; [exact Hr|]].
  - rewrite <- (hash32_c_str s1), <- (hash32_c_str s2), E. reflexivity.
  - rewrite le_value_le_bytes. apply Z.mod_small. exact Hr.
Qed.

Lemma hash32_respects_strcmp_witness :
  hash32 "a.bin" = hash32 (String.append "a.bin" (String NUL "junk"))
  /\ 0 <= hash32 "a.bin" < 2 ^ 32
  /\ le_value (le_bytes 4 (hash32 "a.bin")) = hash32 "a.bin".
Proof.
  apply (hash32_respects_strcmp "a.bin"
           (String.append "a.bin" (String NUL "junk"))).
  vm_compute. reflexivity.
Defined.

(** X18: a header cut short is not rejected.  For a file that starts
    with the magic but ends before the 14th byte, [hsgaa_read_archive]
    reports no error and returns no null pointer: it never looks at what
    [fread] delivered and goes on to seek to a [toc_offset] it has not
    read in full. *)
Theorem read_short_header (archive_path : string) (w : World)
    (rest : list byte) :
  fs w !! c_str archive_path = Some (RegularFile (MAGIC ++ rest)) ->
  (length rest < 10)%nat ->
  hsgaa_read_archive archive_path w = Fault Uninitialised.
Proof.
  intros Hfile Hlen. unfold hsgaa_read_archive, bind, fopen_rb.
  rewrite Hfile.
  do 10 (destruct rest as [|? rest]; [reflexivity|]).
  simpl in Hlen. lia.
Qed.

Lemma read_short_header_witness :
  hsgaa_read_archive "short.aaf" short_header_world = Fault Uninitialised.
Proof.
  apply (read_short_header "short.aaf" short_header_world (bytes_of [1; 0])).
  - vm_compute. reflexivity.
  - simpl. lia.
Defined.

(* ===================================================================== *)
(** * The table of contents in the written file                           *)
(* ===================================================================== *)

(** C8: the table of contents [hsgaa_write_archive] serialises.  For an
    archive under construction whose names fit the 32-bit length field,
    written in a state where every read of the writer is a defined one
    (a byte at address [VERSION], a live buffer behind each chunk
    pointer) to a path that can be opened, the write completes and the
    output file is the header and chunk bytes (14 + chunk bytes long)
    followed by exactly the layout of the specification: a 32-bit entry
    count, then per entry, in insertion order, the CRC-32 of the name,
    the 64-bit offset and size, the 32-bit name length and the name
    bytes without terminator.  The declared count is the number of
    records modulo 2^32, hence the number of records whenever that fits
    the field. *)
Theorem toc_follows_layout `{Platform} (archive : HSGAAArchive)
    (output_path : string) (w : World) (b : byte)
    (datas : list (list byte)) :
  built archive ->
  Forall (fun e => strlen (name e) < 2 ^ 32) (elems (entries archive)) ->
  readable w VERSION 1 [b] ->
  Forall3 (readable w) (elems (image_chunks archive))
    (elems (image_chunk_sizes archive)) datas ->
  fs w !! c_str output_path <> Some Unopenable ->
  exists front,
    hsgaa_write_archive archive output_path w
    = Done (tt,
            set_fs
              (<[c_str output_path :=
                   RegularFile
                     (front ++ spec_toc (elems (entries archive)))]>) w)
    /\ Z.of_nat (length front) = 14 + chunk_bytes_total archive
    /\ write_toc archive = Done (spec_toc (elems (entries archive)))
    /\ declared_count (spec_toc (elems (entries archive)))
       = wrap32 (Z.of_nat (length (elems (entries archive))))
    /\ (entry_count archive < 2 ^ 32 ->
        declared_count (spec_toc (elems (entries archive)))
        = Z.of_nat (length (elems (entries archive)))).
Proof.
  intros Hbuilt Hnames Hv Hall Hopen.
  destruct (built_invariant archive Hbuilt) as (Hc & Hplain).
  pose proof Hc as (He & _ & _).
  assert (Etoc : take 4 (le_bytes 8 (entry_count archive))
                   ++ concat (map write_toc_entry (elems (entries archive)))
                 = spec_toc (elems (entries archive))).
  { unfold spec_toc. rewrite (spec_records _ Hplain Hnames).
    change 8%nat with (4 + 4)%nat. rewrite take_le_bytes, He. reflexivity. }
  assert (Hdecl : declared_count (spec_toc (elems (entries archive)))
                  = wrap32 (Z.of_nat (length (elems (entries archive))))).
  { unfold spec_toc, declared_count, wrap32.
    rewrite take_app_length' by (rewrite length_le_bytes; reflexivity).
    rewrite le_value_le_bytes. reflexivity. }
  exists ((MAGIC ++ [b]
             ++ [byte_of_Z (if decide (compress archive <> 0) then 1 else 0)]
             ++ le_bytes 8 (toc_offset_of archive))
            ++ concat datas).
  split; [|split; [|split; [|split]]].
  - rewrite (write_archive_run archive output_path w b datas Hc Hv Hall Hopen).
    rewrite Etoc, <- app_assoc. reflexivity.
  - rewrite length_app, Nat2Z.inj_add, (chunk_lengths _ _ _ _ Hall).
    rewrite !length_app, length_le_bytes. reflexivity.
  - rewrite (write_toc_records archive He), Etoc. reflexivity.
  - exact Hdecl.
  - intros Hcount. rewrite Hdecl. unfold wrap32. apply Z.mod_small. lia.
Qed.

Lemma toc_follows_layout_witness :
  exists front,
    hsgaa_write_archive sample_built "out.aaf" sample_live_world
    = Done (tt,
            set_fs
              (<[c_str "out.aaf" :=
                   RegularFile
                     (front ++ spec_toc (elems (entries sample_built)))]>)
              sample_live_world)
    /\ Z.of_nat (length front) = 14 + chunk_bytes_total sample_built
    /\ write_toc sample_built = Done (spec_toc (elems (entries sample_built)))
    /\ declared_count (spec_toc (elems (entries sample_built)))
       = wrap32 (Z.of_nat (length (elems (entries sample_built))))
    /\ (entry_count sample_built < 2 ^ 32 ->
        declared_count (spec_toc (elems (entries sample_built)))
        = Z.of_nat (length (elems (entries sample_built)))).
Proof.
  apply (toc_follows_layout (H := sample_platform) sample_built "out.aaf"
           sample_live_world (byte_of_Z 1)
           [bytes_of [1; 2; 3]; bytes_of [4; 5; 6; 7; 8]]).
  - exact sample_built_is_built.
  - repeat constructor.
  - right. eexists. split; [vm_compute; reflexivity|].
    split; [reflexivity|]. split; [simpl; lia|reflexivity].
  - constructor; [|constructor; [|constructor]].
    + right. eexists. split; [vm_compute; reflexivity|].
      split; [reflexivity|]. split; [simpl; lia|reflexivity].
    + right. eexists. split; [vm_compute; reflexivity|].
      split; [reflexivity|]. split; [simpl; lia|reflexivity].
  - vm_compute. discriminate.
Defined.
